(** * The Sparkify ETL job (etl.py), embedded and verified

    The job reads two collections of JSON records through a Spark
    session, derives a star schema (songs, artists, users, time,
    songplays) and writes it as parquet data sets.  The embedding
    follows etl.py statement by statement:

    - a data frame is the list of its partitions, each a list of rows;
    - a nullable column is an [option];
    - the session's temporary views, the parquet store and the paths the
      store refuses to write are threaded through a small state and
      error monad, so that what has been written before a failure stays
      written;
    - the calendar functions of the engine and the Python lambda behind
      [get_timestamp] are the methods of a class [Engine]: the program
      pins neither time zone nor week numbering, and no result below
      depends on them.  The lambda is partial: where it raises, the
      write that runs it raises. *)

From Stdlib Require Import ZArith Lia Ascii String.
From Stdlib Require QArith Qcanon.
From stdpp Require Import gmap strings list fin_maps sorting.

Open Scope Z_scope.

(** ** Columns *)

(** A double column is carried as its value.  The job never computes
    with a double, it only projects and compares them, and the engine
    compares doubles by value: 0.0 and -0.0 are one value, and so are all
    NaN.  A finite double is a rational number in lowest terms. *)
Inductive double : Type :=
| Finite (q : Qcanon.Qc)
| Infinity (negative : bool)
| NaN.

#[global] Instance double_eq_dec : EqDecision double.
Proof.
  intros [q1|b1|] [q2|b2|]; try (right; discriminate).
  - destruct (Qcanon.Qc_eq_dec q1 q2) as [->|Hne];
      [by left|right; by intros [= ?]].
  - destruct (decide (b1 = b2)) as [->|Hne];
      [by left|right; by intros [= ?]].
  - by left.
Defined.

(** [==] on two columns is three-valued in the engine: with a null on
    either side it is null, and neither [where] nor an inner join keeps a
    row whose condition is null. *)
Definition col_eq {A} `{EqDecision A} (x y : option A) : bool :=
  match x, y with
  | Some a, Some b => bool_decide (a = b)
  | _, _ => false
  end.

(** ** Data frames *)

(** A data frame is the list of its partitions. *)
Abbreviation DataFrame A := (list (list A)) (only parsing).

Definition collect {A} (df : DataFrame A) : list A := mjoin df.

(** [select] and [withColumn] work row by row and keep the partitions. *)
Definition select {A B} (f : A → B) (df : DataFrame A) : DataFrame B :=
  (λ part : list A, f <$> part) <$> df.

Definition withColumn {A B} (f : A → B) (df : DataFrame A) : DataFrame B :=
  (λ part : list A, f <$> part) <$> df.

(** [df.where(cond)] ([where] is reserved in Rocq). *)
Definition where_ {A} (cond : A → bool) (df : DataFrame A) : DataFrame A :=
  (λ part : list A, filter (λ r, cond r) part) <$> df.

(** [dropDuplicates()] without a column subset compares whole rows.  It
    shuffles; the layout after the shuffle is observed by nothing in the
    job, so the result is laid out as one partition. *)
Definition dropDuplicates {A} `{EqDecision A} (df : DataFrame A)
  : DataFrame A :=
  [remove_dups (collect df)].

(** A Java [long]. *)
Definition wrap64 (z : Z) : Z := (z + 2 ^ 63) `mod` 2 ^ 64 - 2 ^ 63.

(** [monotonically_increasing_id()]: the partition index in the upper
    bits, the position of the row in its partition in the lower 33. *)
Definition monotonically_increasing_id (p i : nat) : Z :=
  wrap64 (Z.shiftl (Z.of_nat p) 33 + Z.of_nat i).

Definition withColumn_id {A B} (f : A → Z → B) (df : DataFrame A)
  : DataFrame B :=
  imap (λ p part, imap (λ i r, f r (monotonically_increasing_id p i)) part) df.

(** [left.join(right, on = cond, how = 'inner')]: every left row paired
    with every right row that satisfies the condition. *)
Definition join {A B} (cond : A → B → bool)
    (left : DataFrame A) (right : DataFrame B) : DataFrame (A * B) :=
  (λ part : list A,
     a ← part; pair a <$> filter (λ b, cond a b) (collect right))
    <$> left.

(** [partitionBy(cols)] at a write: one directory per value of the
    partition columns, holding the rows that carry that value. *)
Definition partitionBy {A K} `{EqDecision K} (key : A → K) (df : DataFrame A)
  : list (K * list A) :=
  (λ k, (k, filter (λ r, key r = k) (collect df)))
    <$> remove_dups (key <$> collect df).

(** The rows of a partitioned data set, read back from all its
    directories. *)
Definition rows_of {A K} (parts : list (K * list A)) : list A :=
  parts ≫= snd.

(** ** Records *)

(** A record of the song data set. *)
Module Catalog.
Record t := mk {
  song_id : option string;
  title : option string;
  artist_id : option string;
  year : option Z;
  duration : option double;
  artist_name : option string;
  artist_location : option string;
  artist_latitude : option double;
  artist_longitude : option double
}.
End Catalog.

Module Song.
Record t := mk {
  song_id : option string;
  title : option string;
  artist_id : option string;
  year : option Z;
  duration : option double
}.
#[global] Instance eq_dec : EqDecision t.
Proof. solve_decision. Defined.
End Song.

Module Artist.
Record t := mk {
  artist_id : option string;
  name : option string;
  location : option string;
  latitude : option double;
  longitude : option double
}.
#[global] Instance eq_dec : EqDecision t.
Proof. solve_decision. Defined.
End Artist.

(** A row of the view [sng_art_mapping]. *)
Module Mapping.
Record t := mk {
  song_id : option string;
  title : option string;
  artist_id : option string;
  artist_name : option string
}.
#[global] Instance eq_dec : EqDecision t.
Proof. solve_decision. Defined.
End Mapping.

(** A record of the log data set, after the renamings of
    [process_log_data].  The log carries no songId column, so the first
    renaming changes nothing and [song_id] after the join is the column
    of the view.  The columns the job never reads (auth, itemInSession,
    length, method, registration, status) are left out. *)
Module Log.
Record t := mk {
  page : option string;
  ts : option Z;
  user_id : option string;
  first_name : option string;
  last_name : option string;
  gender : option string;
  level : option string;
  session_id : option Z;
  location : option string;
  user_agent : option string;
  artist : option string;
  song : option string
}.
End Log.

Module User.
Record t := mk {
  user_id : option string;
  first_name : option string;
  last_name : option string;
  gender : option string;
  level : option string
}.
#[global] Instance eq_dec : EqDecision t.
Proof. solve_decision. Defined.
End User.

(** A log row with the columns [start_time], [year] and [month] added.
    The udf is declared without a return type, which makes [start_time]
    a string column. *)
Module Event.
Record t := mk {
  log : Log.t;
  start_time : string;
  year : option Z;
  month : option Z
}.
End Event.

(** The projection [start_time, year, month] the time table starts from. *)
Module Tick.
Record t := mk {
  start_time : string;
  year : option Z;
  month : option Z
}.
#[global] Instance eq_dec : EqDecision t.
Proof. solve_decision. Defined.
End Tick.

Module TimeRow.
Record t := mk {
  start_time : string;
  year : option Z;
  month : option Z;
  hour : option Z;
  day : option Z;
  week : option Z;
  weekday : option Z
}.
#[global] Instance eq_dec : EqDecision t.
Proof. solve_decision. Defined.
End TimeRow.

Module Songplay.
Record t := mk {
  songplay_id : Z;
  start_time : string;
  user_id : option string;
  level : option string;
  song_id : option string;
  artist_id : option string;
  session_id : option Z;
  location : option string;
  user_agent : option string;
  year : option Z;
  month : option Z
}.
#[global] Instance eq_dec : EqDecision t.
Proof. solve_decision. Defined.
End Songplay.

(** ** The engine's time functions *)

(** [get_timestamp] is the lambda of the udf, [dt.fromtimestamp(x / 1000)]
    with the text the engine makes of its result, on a number: it renders
    in the local zone of the worker, and it raises on a number outside
    the range of [datetime], which is [None] here.  [year], [month],
    [hour], [dayofmonth], [weekofyear] and [dayofweek] are the engine's
    column functions, here on a string column.  They are functions of
    their argument and nothing more is assumed of them. *)
Class Engine := {
  get_timestamp : Z → option string;
  year : string → option Z;
  month : string → option Z;
  hour : string → option Z;
  dayofmonth : string → option Z;
  weekofyear : string → option Z;
  dayofweek : string → option Z
}.

(** ** The session and the store *)

Inductive Parquet :=
| SongsParquet (parts : list ((option Z * option string) * list Song.t))
| ArtistsParquet (rows : list Artist.t)
| UsersParquet (rows : list User.t)
| TimeParquet (parts : list ((option Z * option Z) * list TimeRow.t))
| SongplaysParquet (parts : list ((option Z * option Z) * list Songplay.t)).

Record World := mkWorld {
  temp_views : gmap string (DataFrame Mapping.t);
  store : gmap string Parquet;
  read_only : gset string
}.

Inductive Error :=
| AnalysisException (missing_table : string)
| WriteFailed (path : string)
| PythonException.

Inductive Outcome (A : Type) :=
| Done (a : A)
| Raised (e : Error).
Arguments Done {A} a.
Arguments Raised {A} e.

(** A job step runs in a world and leaves a world, also when it raises:
    nothing the job wrote before an exception is rolled back. *)
Definition Job (A : Type) : Type := World → World * Outcome A.

#[global] Instance job_ret : MRet Job := λ A a w, (w, Done a).

#[global] Instance job_bind : MBind Job := λ A B k m w,
  match m w with
  | (w', Done a) => k a w'
  | (w', Raised e) => (w', Raised e)
  end.

(** [df.write.mode('overwrite')...parquet(path)]: the data set at [path]
    is replaced, unless the store refuses the write. *)
Definition write_parquet (path : string) (data : Parquet) : Job unit :=
  λ w,
    if decide (path ∈ read_only w) then (w, Raised (WriteFailed path))
    else (mkWorld (temp_views w) (<[path := data]> (store w)) (read_only w),
          Done ()).

(** The same write of a data set that a udf goes into: the udf runs in
    the job of the write.  [mode('overwrite')] clears the path before
    the job starts, so a job in which the udf raises ([None]) leaves the
    path cleared, and the write raises what the udf raised. *)
Definition write_parquet_job (path : string) (job : option Parquet)
  : Job unit :=
  λ w,
    if decide (path ∈ read_only w) then (w, Raised (WriteFailed path))
    else
      match job with
      | Some data =>
          (mkWorld (temp_views w) (<[path := data]> (store w)) (read_only w),
           Done ())
      | None =>
          (mkWorld (temp_views w) (delete path (store w)) (read_only w),
           Raised PythonException)
      end.

Definition createOrReplaceTempView (name : string) (df : DataFrame Mapping.t)
  : Job unit :=
  λ w, (mkWorld (<[name := df]> (temp_views w)) (store w) (read_only w),
        Done ()).

(** [spark.sql('select * from name')]: the analysis of the query raises
    when no view of that name is registered. *)
Definition sql_select_all (name : string) : Job (DataFrame Mapping.t) :=
  λ w,
    match temp_views w !! name with
    | Some df => (w, Done df)
    | None => (w, Raised (AnalysisException name))
    end.

(** ** Setup: the credentials

    The module reads [dl.cfg] into a [ConfigParser] and copies two of its
    entries into [os.environ] before any function runs. *)

(** What the parser holds after [config.read('dl.cfg')]: the options of
    each section, by section name.  A file that is missing is skipped
    without an error and leaves the parser empty. *)
Abbreviation ConfigParser := (gmap string (gmap string string)).

(** The two kinds of Python value the setup handles. *)
Inductive PyValue :=
| PyStr (s : string)
| SectionProxy (section : string).

Inductive PyError :=
| KeyError (key : string)
| TypeError (message : string).

(** [config[key]] on a parser: the proxy of the section of that name; a
    [KeyError] when the name is neither the default section nor a section
    of the file. *)
Definition config_getitem (config : ConfigParser) (key : string)
  : PyError + PyValue :=
  if decide (key ≠ "DEFAULT" ∧ config !! key = None) then inl (KeyError key)
  else inr (SectionProxy key).

(** [os.environ[key] = value]: the value is encoded first, and only a
    [str] can be. *)
Definition environ_setitem (environ : gmap string string) (key : string)
    (value : PyValue) : PyError + gmap string string :=
  match value with
  | PyStr s => inr (<[key := s]> environ)
  | SectionProxy _ => inl (TypeError "str expected, not SectionProxy")
  end.

(** The two assignments of the setup, in their order. *)
Definition setup (config : ConfigParser) (environ : gmap string string)
  : PyError + gmap string string :=
  match config_getitem config "AWS_ACCESS_KEY_ID" with
  | inl e => inl e
  | inr v =>
      match environ_setitem environ "AWS_ACCESS_KEY_ID" v with
      | inl e => inl e
      | inr environ =>
          match config_getitem config "AWS_SECRET_ACCESS_KEY" with
          | inl e => inl e
          | inr v => environ_setitem environ "AWS_SECRET_ACCESS_KEY" v
          end
      end
  end.

(** ** process_song_data *)

(** The column lists of the three [select] calls. *)
Definition song_columns (r : Catalog.t) : Song.t :=
  Song.mk (Catalog.song_id r) (Catalog.title r) (Catalog.artist_id r)
          (Catalog.year r) (Catalog.duration r).

Definition mapping_columns (r : Catalog.t) : Mapping.t :=
  Mapping.mk (Catalog.song_id r) (Catalog.title r) (Catalog.artist_id r)
             (Catalog.artist_name r).

(** The four renamings are folded into the projection. *)
Definition artist_columns (r : Catalog.t) : Artist.t :=
  Artist.mk (Catalog.artist_id r) (Catalog.artist_name r)
            (Catalog.artist_location r) (Catalog.artist_latitude r)
            (Catalog.artist_longitude r).

Definition songs_table (df : DataFrame Catalog.t) : DataFrame Song.t :=
  dropDuplicates (select song_columns df).

Definition sng_art_mapping (df : DataFrame Catalog.t) : DataFrame Mapping.t :=
  dropDuplicates (select mapping_columns df).

Definition artists_table (df : DataFrame Catalog.t) : DataFrame Artist.t :=
  dropDuplicates (select artist_columns df).

(** [df] stands for [spark.read.json(input_data)], a frame that has the
    nine columns of [Catalog.t].  The engine infers the columns of a frame
    from the records of its source: a source without a record gives a
    frame without columns, which is no [DataFrame Catalog.t], and on
    which the first [select] raises before anything is written. *)
Definition process_song_data (df : DataFrame Catalog.t) (output_data : string)
  : Job unit :=
  write_parquet (output_data +:+ "/songs.parquet")
    (SongsParquet
       (partitionBy (λ r, (Song.year r, Song.artist_id r)) (songs_table df))) ;;
  createOrReplaceTempView "sng_art_mapping" (sng_art_mapping df) ;;
  write_parquet (output_data +:+ "/artists.parquet")
    (ArtistsParquet (collect (artists_table df))).

(** ** process_log_data *)

Section process_log_data.
Context `{Engine}.

(** [df.where(df.page == 'NextSong')] *)
Definition next_song (df : DataFrame Log.t) : DataFrame Log.t :=
  where_ (λ r, col_eq (Log.page r) (Some "NextSong")) df.

Definition user_columns (r : Log.t) : User.t :=
  User.mk (Log.user_id r) (Log.first_name r) (Log.last_name r)
          (Log.gender r) (Log.level r).

Definition users_table (df : DataFrame Log.t) : DataFrame User.t :=
  dropDuplicates (select user_columns df).

(** [get_timestamp(df.ts)] on one row.  The engine hands the lambda a
    null as [None], and [None / 1000] raises as a number out of range
    does: in both cases there is no value ([None]). *)
Definition udf_get_timestamp (r : Log.t) : option string :=
  Log.ts r ≫= get_timestamp.

(** Whether the lambda returns on every row of a frame.  The frame is
    lazy: the lambda runs, on all its rows, in the job of each write that
    reads [start_time]. *)
Definition lambda_returns (df : DataFrame Log.t) : bool :=
  forallb (λ r, bool_decide (is_Some (udf_get_timestamp r))) (collect df).

(** The text in [start_time].  Where the lambda raises there is none, and
    no write goes through with such a row: see [process_log_data]. *)
Definition start_time_of (r : Log.t) : string :=
  default "" (udf_get_timestamp r).

(** The three [withColumn] calls that add [start_time], [year] and
    [month]. *)
Definition with_start_time (df : DataFrame Log.t) : DataFrame Event.t :=
  withColumn (λ '(r, t, y), Event.mk r t y (month t))
    (withColumn (λ '(r, t), (r, t, year t))
       (withColumn (λ r, (r, start_time_of r)) df)).

Definition tick_columns (e : Event.t) : Tick.t :=
  Tick.mk (Event.start_time e) (Event.year e) (Event.month e).

(** The projection, the deduplication and the four [withColumn] calls
    of the time table. *)
Definition time_table (df : DataFrame Event.t) : DataFrame TimeRow.t :=
  withColumn (λ '(k, h, d, w),
                TimeRow.mk (Tick.start_time k) (Tick.year k) (Tick.month k)
                           h d w (dayofweek (Tick.start_time k)))
    (withColumn (λ '(k, h, d), (k, h, d, weekofyear (Tick.start_time k)))
       (withColumn (λ '(k, h), (k, h, dayofmonth (Tick.start_time k)))
          (withColumn (λ k, (k, hour (Tick.start_time k)))
             (dropDuplicates (select tick_columns df))))).

(** The condition of the join:
    [(df.artist == songs_art.artist_name) & (df.song == songs_art.title)]. *)
Definition on_artist_and_song (r : Log.t) (m : Mapping.t) : bool :=
  col_eq (Log.artist r) (Mapping.artist_name m)
  && col_eq (Log.song r) (Mapping.title m).

Definition songplay_row (j : Event.t * Z * Mapping.t) : Songplay.t :=
  let '(e, id, m) := j in
  Songplay.mk id (Event.start_time e)
    (Log.user_id (Event.log e)) (Log.level (Event.log e))
    (Mapping.song_id m) (Mapping.artist_id m)
    (Log.session_id (Event.log e)) (Log.location (Event.log e))
    (Log.user_agent (Event.log e)) (Event.year e) (Event.month e).

Definition songplays (df : DataFrame Event.t) (songs_art : DataFrame Mapping.t)
  : DataFrame Songplay.t :=
  select songplay_row
    (join (λ l m, on_artist_and_song (Event.log l.1) m)
          (withColumn_id pair df) songs_art).

(** [df0] stands for [spark.read.json(input_data)] with its columns
    renamed.  The users table is written before the udf is attached; the
    time table and the fact table are written from the frame with
    [start_time], and their jobs run the lambda on every filtered row. *)
Definition process_log_data (df0 : DataFrame Log.t) (output_data : string)
  : Job unit :=
  let df := next_song df0 in
  write_parquet (output_data +:+ "/users.parquet")
    (UsersParquet (collect (users_table df))) ;;
  let returns := lambda_returns df in
  let df := with_start_time df in
  write_parquet_job (output_data +:+ "/time.parquet")
    (if returns
     then Some (TimeParquet
                  (partitionBy (λ r, (TimeRow.year r, TimeRow.month r))
                               (time_table df)))
     else None) ;;
  songs_art ← sql_select_all "sng_art_mapping";
  write_parquet_job (output_data +:+ "/songplays.parquet")
    (if returns
     then Some (SongplaysParquet
                  (partitionBy (λ r, (Songplay.year r, Songplay.month r))
                               (songplays df songs_art)))
     else None).

(** [main], with the two data frames the session reads at the two
    globs and the output root. *)
Definition main (song_data : DataFrame Catalog.t) (log_data : DataFrame Log.t)
    (output_data : string) : Job unit :=
  process_song_data song_data output_data ;;
  process_log_data log_data output_data.

End process_log_data.

(** ** One engine: a session that runs in UTC

    The results below hold for every [Engine].  This instance runs the
    model on concrete data: [fromtimestamp] in UTC printed the way Python
    prints a [datetime], the proleptic Gregorian calendar, ISO-8601
    weeks and Sunday as day 1 of the week, as [weekofyear] and
    [dayofweek] document.  It is an engine whose [start_time] is the text
    of the [datetime] and whose calendar functions read that text.  The
    engine the job runs on need not be this one: with the udf declared
    without a return type, it may make another text of the [datetime],
    one its calendar functions cannot read, and have them all return
    null.  That engine is an [Engine] too, and the results cover it. *)
Module UTC.

(** Year, month and day of a day count from 1970-01-01. *)
Definition civil_from_days (z : Z) : Z * Z * Z :=
  let z := z + 719468 in
  let era := z `div` 146097 in
  let doe := z - era * 146097 in
  let yoe := (doe - doe `div` 1460 + doe `div` 36524 - doe `div` 146096)
               `div` 365 in
  let doy := doe - (365 * yoe + yoe `div` 4 - yoe `div` 100) in
  let mp := (5 * doy + 2) `div` 153 in
  let d := doy - (153 * mp + 2) `div` 5 + 1 in
  let m := if mp <? 10 then mp + 3 else mp - 9 in
  (yoe + era * 400 + (if m <=? 2 then 1 else 0), m, d).

Definition days_from_civil (y m d : Z) : Z :=
  let y := if m <=? 2 then y - 1 else y in
  let era := y `div` 400 in
  let yoe := y - era * 400 in
  let doy := (153 * (if 2 <? m then m - 3 else m + 9) + 2) `div` 5 + d - 1 in
  era * 146097 + (yoe * 365 + yoe `div` 4 - yoe `div` 100 + doy) - 719468.

Definition digit (n : Z) : ascii := ascii_of_nat (48 + Z.to_nat (n `mod` 10)).

Fixpoint digits (width : nat) (n : Z) (acc : string) : string :=
  match width with
  | O => acc
  | S w => digits w (n `div` 10) (String (digit n) acc)
  end.

Definition pad (width : nat) (n : Z) : string := digits width n "".

Definition fromtimestamp (ts : Z) : string :=
  let secs := ts `div` 1000 in
  let ms := ts `mod` 1000 in
  let '(y, m, d) := civil_from_days (secs `div` 86400) in
  let sod := secs `mod` 86400 in
  pad 4 y +:+ "-" +:+ pad 2 m +:+ "-" +:+ pad 2 d +:+ " "
    +:+ pad 2 (sod `div` 3600) +:+ ":" +:+ pad 2 ((sod `mod` 3600) `div` 60)
    +:+ ":" +:+ pad 2 (sod `mod` 60)
    +:+ (if ms =? 0 then "" else "." +:+ pad 3 ms +:+ "000").

Fixpoint number (s : string) (acc : Z) : option Z :=
  match s with
  | EmptyString => Some acc
  | String c s' =>
      let n := Z.of_nat (nat_of_ascii c) in
      if (48 <=? n) && (n <=? 57) then number s' (10 * acc + (n - 48))
      else None
  end.

(** The field of [len] digits at offset [pos]; null when the string is
    no timestamp there. *)
Definition field (pos len : nat) (s : string) : option Z :=
  let f := substring pos len s in
  if decide (String.length f = len) then number f 0 else None.

Definition day_count (s : string) : option Z :=
  y ← field 0 4 s; m ← field 5 2 s; d ← field 8 2 s;
  Some (days_from_civil y m d).

Definition iso_week (days : Z) : Z :=
  let thursday := days - (days + 3) `mod` 7 + 3 in
  let '(y, _, _) := civil_from_days thursday in
  (thursday - days_from_civil y 1 1) `div` 7 + 1.

(** [datetime] spans the years 1 to 9999. *)
Definition in_datetime_range (ts : Z) : bool :=
  (days_from_civil 1 1 1 * 86400 <=? ts `div` 1000)
  && (ts `div` 1000 <? days_from_civil 10000 1 1 * 86400).

#[export] Instance engine : Engine := {|
  get_timestamp :=
    λ ts, if in_datetime_range ts then Some (fromtimestamp ts) else None;
  year := field 0 4;
  month := field 5 2;
  hour := field 11 2;
  dayofmonth := field 8 2;
  weekofyear := λ s, iso_week <$> day_count s;
  dayofweek := λ s, (λ days, (days + 4) `mod` 7 + 1) <$> day_count s
|}.

End UTC.

(** ** The scenario of the specification *)

Module Scenario.

(** 200.0, 40.7 (the double nearest to it) and -74.0. *)
Definition duration : double :=
  Finite (Qcanon.Q2Qc (QArith_base.Qmake 200 1)).

Definition latitude : double :=
  Finite (Qcanon.Q2Qc (QArith_base.Qmake 0x1459999999999a 140737488355328)).

Definition longitude : double :=
  Finite (Qcanon.Q2Qc (QArith_base.Qmake (-74) 1)).

Definition song : Catalog.t :=
  Catalog.mk (Some "S1") (Some "Test Song") (Some "A1") (Some 2000)
             (Some duration)
             (Some "Test Artist") (Some "NYC")
             (Some latitude) (Some longitude).

Definition play : Log.t :=
  Log.mk (Some "NextSong") (Some 946684800000) (Some "1") (Some "A") (Some "B")
         (Some "F") (Some "free") (Some 100) (Some "loc") (Some "ua")
         (Some "Test Artist") (Some "Test Song").

Definition home : Log.t :=
  Log.mk (Some "Home") (Some 946684800000) (Some "1") (Some "A") (Some "B")
         (Some "F") (Some "free") (Some 100) (Some "loc") (Some "ua")
         None None.

Definition empty : World := mkWorld ∅ ∅ ∅.

(** The world after the catalog has been processed. *)
Definition loaded : World :=
  (process_song_data [[song]] "out" empty).1.

(** The same, with a store that refuses the fact table. *)
Definition locked : World :=
  mkWorld (temp_views loaded) (store loaded) {["out/songplays.parquet"]}.

(** A second recording of the same title by the same artist. *)
Definition cover : Catalog.t :=
  Catalog.mk (Some "S2") (Some "Test Song") (Some "A1") (Some 2001)
             (Some duration)
             (Some "Test Artist") (Some "NYC")
             (Some latitude) (Some longitude).


(** The song of the scenario filed under another artist name. *)
Definition other : Catalog.t :=
  Catalog.mk (Some "S1") (Some "Test Song") (Some "A1") (Some 2000)
             (Some duration)
             (Some "Other Artist") (Some "NYC")
             (Some latitude) (Some longitude).

(** The listener of the scenario after an upgrade. *)
Definition paid : Log.t :=
  Log.mk (Some "NextSong") (Some 946684860000) (Some "1") (Some "A") (Some "B")
         (Some "F") (Some "paid") (Some 101) (Some "loc") (Some "ua")
         (Some "Test Artist") (Some "Test Song").

(** An event stamped 10^18 milliseconds, a second count [datetime] has
    no year for. *)
Definition far : Log.t :=
  Log.mk (Some "NextSong") (Some (10 ^ 18)) (Some "1") (Some "A") (Some "B")
         (Some "F") (Some "free") (Some 100) (Some "loc") (Some "ua")
         (Some "Test Artist") (Some "Test Song").

End Scenario.

(** ** Notions the statements below are written in *)

(** The bit layout of [monotonically_increasing_id] has room for 2^31
    partitions of 2^33 rows each; the engine documents the function for
    data frames within that range. *)
Definition within_id_range {A} (df : DataFrame A) : Prop :=
  Z.of_nat (length df) ≤ 2 ^ 31
  ∧ Forall (λ part : list A, Z.of_nat (length part) ≤ 2 ^ 33) df.

(** The identifiers given to the rows of [df] when its first partition
    has index [k]. *)
Definition ids_from {A} (k : nat) (df : DataFrame A) : list Z :=
  snd <$> mjoin (imap (λ p part,
                         imap (λ i (r : A),
                                 (r, monotonically_increasing_id (k + p) i))
                              part) df).

Section notions.
Context `{Engine}.

(** The three data sets [process_log_data] writes. *)
Definition users_parquet (df0 : DataFrame Log.t) : Parquet :=
  UsersParquet (collect (users_table (next_song df0))).

Definition time_parquet (df0 : DataFrame Log.t) : Parquet :=
  TimeParquet
    (partitionBy (λ r, (TimeRow.year r, TimeRow.month r))
                 (time_table (with_start_time (next_song df0)))).

Definition songplays_parquet (df0 : DataFrame Log.t)
    (songs_art : DataFrame Mapping.t) : Parquet :=
  SongplaysParquet
    (partitionBy (λ r, (Songplay.year r, Songplay.month r))
                 (songplays (with_start_time (next_song df0)) songs_art)).

(** What the three [withColumn] calls of [with_start_time] make of a
    log row. *)
Definition event_of (r : Log.t) : Event.t :=
  let t := start_time_of r in Event.mk r t (year t) (month t).

(** The row of the time table for a timestamp: every column is
    computed from [start_time]. *)
Definition time_of (t : string) : TimeRow.t :=
  TimeRow.mk t (year t) (month t) (hour t) (dayofmonth t) (weekofyear t)
             (dayofweek t).

(** The rows the join and the projection of [songplays] make of one
    numbered log row. *)
Definition joined_with (songs_art : DataFrame Mapping.t) (r : Log.t) (id : Z)
  : list Songplay.t :=
  (λ m, songplay_row (event_of r, id, m))
    <$> filter (λ m, on_artist_and_song r m) (collect songs_art).

End notions.

(** * Facts about data frames *)

Section data_frames.
Context {A B : Type}.

Lemma collect_select (f : A → B) (df : DataFrame A) :
  collect (select f df) = f <$> collect df.
Proof.
  unfold collect, select.
  induction df as [|part df IH]; [done|].
  csimpl. by rewrite fmap_app, IH.
Qed.

Lemma collect_withColumn (f : A → B) (df : DataFrame A) :
  collect (withColumn f df) = f <$> collect df.
Proof. apply collect_select. Qed.

Lemma collect_where (cond : A → bool) (df : DataFrame A) :
  collect (where_ cond df) = filter (λ r, cond r) (collect df).
Proof.
  unfold collect, where_.
  induction df as [|part df IH]; [done|].
  csimpl. by rewrite filter_app, IH.
Qed.

Lemma where_idempotent (cond : A → bool) (df : DataFrame A) :
  where_ cond (where_ cond df) = where_ cond df.
Proof.
  unfold where_. rewrite <- list_fmap_compose.
  apply list_fmap_ext. intros _ part _. cbn.
  rewrite list_filter_filter. apply list_filter_iff. tauto.
Qed.

Lemma collect_join (cond : A → B → bool) (l : DataFrame A) (r : DataFrame B) :
  collect (join cond l r)
  = a ← collect l; pair a <$> filter (λ b, cond a b) (collect r).
Proof.
  unfold join, collect.
  induction l as [|part l IH]; [done|].
  csimpl. by rewrite bind_app, IH.
Qed.

End data_frames.

Section deduplication.
Context {A : Type} `{EqDecision A}.

Lemma remove_dups_NoDup (l : list A) : NoDup l → remove_dups l = l.
Proof.
  induction 1 as [|x l Hx _ IH]; [done|].
  simpl. destruct (decide_rel (∈) x l) as [?|_]; [done|by rewrite IH].
Qed.

Lemma remove_dups_fmap {B} `{EqDecision B} (f : A → B) `{!Inj (=) (=) f}
    (l : list A) :
  remove_dups (f <$> l) = f <$> remove_dups l.
Proof.
  induction l as [|x l IH]; [done|]. csimpl.
  destruct (decide_rel (∈) x l) as [Hx|Hx],
           (decide_rel (∈) (f x) (f <$> l)) as [Hfx|Hfx]; csimpl.
  - done.
  - by apply (list_elem_of_fmap_2 f) in Hx.
  - apply list_elem_of_fmap in Hfx as (y & ->%(inj f) & Hy). done.
  - by rewrite IH.
Qed.

Lemma collect_dropDuplicates (df : DataFrame A) :
  collect (dropDuplicates df) = remove_dups (collect df).
Proof. unfold dropDuplicates, collect. cbn. apply app_nil_r. Qed.


Lemma elem_of_dropDuplicates (df : DataFrame A) (x : A) :
  x ∈ collect (dropDuplicates df) ↔ x ∈ collect df.
Proof. rewrite collect_dropDuplicates. apply elem_of_remove_dups. Qed.

Lemma dropDuplicates_idempotent (df : DataFrame A) :
  dropDuplicates (dropDuplicates df) = dropDuplicates df.
Proof.
  unfold dropDuplicates at 1. rewrite collect_dropDuplicates.
  unfold dropDuplicates. f_equal.
  apply remove_dups_NoDup, NoDup_remove_dups.
Qed.

End deduplication.

Section partitions.
Context {A K : Type} `{EqDecision K} (key : A → K).

Lemma filter_key_cons (k : K) (ks : list K) (l : list A) :
  k ∉ ks →
  filter (λ r, key r ∈ k :: ks) l
  ≡ₚ filter (λ r, key r = k) l ++ filter (λ r, key r ∈ ks) l.
Proof.
  intros Hk. induction l as [|x l IH]; [done|].
  rewrite !filter_cons.
  destruct (decide (key x = k)) as [Heq|Hne].
  - rewrite decide_True by (rewrite Heq; left).
    rewrite decide_False by (by rewrite Heq).
    cbn. by rewrite IH.
  - destruct (decide (key x ∈ ks)) as [Hin|Hnin].
    + rewrite decide_True by (by right).
      rewrite IH. apply Permutation_middle.
    + rewrite decide_False; [done|].
      rewrite elem_of_cons. tauto.
Qed.

Lemma group_by_keys (ks : list K) (l : list A) :
  NoDup ks →
  (ks ≫= λ k, filter (λ r, key r = k) l) ≡ₚ filter (λ r, key r ∈ ks) l.
Proof.
  induction 1 as [|k ks Hk _ IH].
  - cbn. induction l as [|x l IHl]; [done|].
    rewrite filter_cons_False; [done|]. apply not_elem_of_nil.
  - rewrite bind_cons, IH. symmetry. by apply filter_key_cons.
Qed.

Lemma filter_all (P : A → Prop) `{∀ x, Decision (P x)} (l : list A) :
  (∀ x, x ∈ l → P x) → filter P l = l.
Proof.
  induction l as [|x l IH]; intros HP; [done|].
  rewrite filter_cons_True by (apply HP; left).
  f_equal. apply IH. intros y Hy. apply HP. by right.
Qed.

(** Writing with [partitionBy] loses no row and repeats none. *)
Lemma rows_of_partitionBy (df : DataFrame A) :
  rows_of (partitionBy key df) ≡ₚ collect df.
Proof.
  unfold rows_of, partitionBy. rewrite list_fmap_bind.
  etrans; [apply (group_by_keys _ (collect df)), NoDup_remove_dups|].
  rewrite filter_all; [done|].
  intros x Hx. apply elem_of_remove_dups, list_elem_of_fmap. eauto.
Qed.

Lemma elem_of_partitionBy (df : DataFrame A) (k : K) (rs : list A) (r : A) :
  (k, rs) ∈ partitionBy key df → r ∈ rs → key r = k ∧ r ∈ collect df.
Proof.
  unfold partitionBy. intros (k' & [= -> ->] & _)%list_elem_of_fmap.
  by intros ?%list_elem_of_filter.
Qed.

End partitions.

(** * What a run leaves behind *)

Lemma path_ne (output_data a b : string) :
  a ≠ b → output_data +:+ a ≠ output_data +:+ b.
Proof. intros Hne Heq. by apply Hne, (String.app_inj output_data). Qed.

#[local] Hint Extern 1 (_ +:+ _ ≠ _ +:+ _) => (apply path_ne; discriminate)
  : core.

Section runs.
Context `{Engine}.

(** [process_log_data], step by step: each write either fails and stops
    the job where it stands, or replaces one data set.  The lambda runs
    in the job of the time write; the job of the fact write runs it on
    the same rows, where it has returned. *)
Lemma process_log_data_run df0 output_data w :
  process_log_data df0 output_data w =
  let put path data w :=
    mkWorld (temp_views w) (<[path := data]> (store w)) (read_only w) in
  if decide (output_data +:+ "/users.parquet" ∈ read_only w)
  then (w, Raised (WriteFailed (output_data +:+ "/users.parquet")))
  else
    let w1 := put (output_data +:+ "/users.parquet") (users_parquet df0) w in
    if decide (output_data +:+ "/time.parquet" ∈ read_only w)
    then (w1, Raised (WriteFailed (output_data +:+ "/time.parquet")))
    else if lambda_returns (next_song df0) then
      let w2 := put (output_data +:+ "/time.parquet") (time_parquet df0) w1 in
      match temp_views w !! "sng_art_mapping" with
      | None => (w2, Raised (AnalysisException "sng_art_mapping"))
      | Some songs_art =>
          if decide (output_data +:+ "/songplays.parquet" ∈ read_only w)
          then (w2, Raised (WriteFailed
                              (output_data +:+ "/songplays.parquet")))
          else (put (output_data +:+ "/songplays.parquet")
                    (songplays_parquet df0 songs_art) w2, Done ())
      end
    else
      (mkWorld (temp_views w)
               (delete (output_data +:+ "/time.parquet") (store w1))
               (read_only w),
       Raised PythonException).
Proof.
  unfold process_log_data, mbind, job_bind, write_parquet, write_parquet_job,
    sql_select_all.
  cbn.
  destruct (decide (output_data +:+ "/users.parquet" ∈ read_only w));
    [done|]. cbn.
  destruct (decide (output_data +:+ "/time.parquet" ∈ read_only w));
    [done|]. cbn.
  destruct (lambda_returns (next_song df0)); [|done]. cbn.
  destruct (temp_views w !! "sng_art_mapping"); [|done]. cbn.
  by destruct (decide (output_data +:+ "/songplays.parquet" ∈ read_only w)).
Qed.

(** What a completed run has met and what it leaves. *)
Lemma run_done df0 output_data w w' :
  process_log_data df0 output_data w = (w', Done ()) →
  (output_data +:+ "/users.parquet" ∉ read_only w)
  ∧ (output_data +:+ "/time.parquet" ∉ read_only w)
  ∧ (output_data +:+ "/songplays.parquet" ∉ read_only w)
  ∧ lambda_returns (next_song df0)
  ∧ ∃ songs_art,
      temp_views w !! "sng_art_mapping" = Some songs_art
      ∧ w' = mkWorld (temp_views w)
               (<[output_data +:+ "/songplays.parquet" :=
                    songplays_parquet df0 songs_art]>
                  (<[output_data +:+ "/time.parquet" := time_parquet df0]>
                     (<[output_data +:+ "/users.parquet" :=
                          users_parquet df0]> (store w))))
               (read_only w).
Proof.
  rewrite process_log_data_run. cbn zeta.
  destruct (decide (output_data +:+ "/users.parquet" ∈ read_only w));
    [discriminate|].
  destruct (decide (output_data +:+ "/time.parquet" ∈ read_only w));
    [discriminate|].
  destruct (lambda_returns (next_song df0)); [|discriminate].
  destruct (temp_views w !! "sng_art_mapping") as [songs_art|];
    [|discriminate].
  destruct (decide (output_data +:+ "/songplays.parquet" ∈ read_only w));
    [discriminate|].
  intros [= <-]. split_and!; [done..|]. by exists songs_art.
Qed.

(** The lambda returns on every row when the [ts] of every row is a
    number it converts. *)
Lemma lambda_returns_spec (df : DataFrame Log.t) :
  lambda_returns df
  ↔ ∀ r, r ∈ collect df →
         ∃ ts t, Log.ts r = Some ts ∧ get_timestamp ts = Some t.
Proof.
  unfold lambda_returns. rewrite forallb_True, Forall_forall.
  apply forall_proper. intros r. apply forall_proper. intros _.
  rewrite bool_decide_spec. unfold udf_get_timestamp, is_Some. split.
  - intros [t Ht]. destruct (Log.ts r) as [ts|]; [|done]. eauto.
  - intros (ts & t & -> & Ht). eauto.
Qed.

(** Where the lambda returns, [start_time] holds what it returned. *)
Lemma start_time_of_returns (r : Log.t) (ts : Z) (t : string) :
  Log.ts r = Some ts → get_timestamp ts = Some t → start_time_of r = t.
Proof.
  intros Hts Ht. unfold start_time_of, udf_get_timestamp.
  by rewrite Hts; cbn; rewrite Ht.
Qed.

End runs.

Lemma process_song_data_run df output_data w :
  process_song_data df output_data w =
  if decide (output_data +:+ "/songs.parquet" ∈ read_only w)
  then (w, Raised (WriteFailed (output_data +:+ "/songs.parquet")))
  else
    let songs :=
      SongsParquet (partitionBy (λ r, (Song.year r, Song.artist_id r))
                                (songs_table df)) in
    let w1 :=
      mkWorld (<["sng_art_mapping" := sng_art_mapping df]> (temp_views w))
              (<[output_data +:+ "/songs.parquet" := songs]> (store w))
              (read_only w) in
    if decide (output_data +:+ "/artists.parquet" ∈ read_only w)
    then (w1, Raised (WriteFailed (output_data +:+ "/artists.parquet")))
    else (mkWorld (temp_views w1)
            (<[output_data +:+ "/artists.parquet" :=
                 ArtistsParquet (collect (artists_table df))]> (store w1))
            (read_only w), Done ()).
Proof.
  unfold process_song_data, mbind, job_bind, write_parquet,
    createOrReplaceTempView.
  cbn. repeat (case_decide; cbn); done.
Qed.

(** * The synthetic identifier *)

Lemma wrap64_inj (x y : Z) :
  0 ≤ x < 2 ^ 64 → 0 ≤ y < 2 ^ 64 → wrap64 x = wrap64 y → x = y.
Proof.
  unfold wrap64.
  change (2 ^ 64) with 18446744073709551616.
  change (2 ^ 63) with 9223372036854775808.
  intros Hx Hy Heq. Z.div_mod_to_equations. lia.
Qed.

Lemma monotonically_increasing_id_inj (p i p' i' : nat) :
  Z.of_nat p < 2 ^ 31 → Z.of_nat i < 2 ^ 33 →
  Z.of_nat p' < 2 ^ 31 → Z.of_nat i' < 2 ^ 33 →
  monotonically_increasing_id p i = monotonically_increasing_id p' i' →
  p = p' ∧ i = i'.
Proof.
  unfold monotonically_increasing_id. rewrite !Z.shiftl_mul_pow2 by lia.
  change (2 ^ 31) with 2147483648. change (2 ^ 33) with 8589934592.
  intros Hp Hi Hp' Hi' Heq.
  apply wrap64_inj in Heq;
    change (2 ^ 64) with 18446744073709551616; lia.
Qed.

Section numbering.
Context {A B : Type} (f : A → Z → B).

Lemma elem_of_withColumn_id (df : DataFrame A) (x : B) :
  x ∈ collect (withColumn_id f df)
  ↔ ∃ p part i r, df !! p = Some part ∧ part !! i = Some r
                  ∧ x = f r (monotonically_increasing_id p i).
Proof.
  unfold collect, withColumn_id. rewrite list_elem_of_join. split.
  - intros (l & Hx & (p & part & -> & Hp)%elem_of_lookup_imap).
    apply elem_of_lookup_imap in Hx as (i & r & -> & Hi). eauto 8.
  - intros (p & part & i & r & Hp & Hi & ->).
    exists (imap (λ i r, f r (monotonically_increasing_id p i)) part).
    split.
    + by apply (elem_of_lookup_imap_2
                  (λ i r, f r (monotonically_increasing_id p i))).
    + by apply (elem_of_lookup_imap_2
                  (λ p part,
                     imap (λ i r, f r (monotonically_increasing_id p i))
                          part)).
Qed.

End numbering.

Section numbering_distinct.
Context {A : Type}.

Lemma elem_of_ids_from k (df : DataFrame A) x :
  x ∈ ids_from k df →
  ∃ p part i, df !! p = Some part ∧ (i < length part)%nat
              ∧ x = monotonically_increasing_id (k + p) i.
Proof.
  unfold ids_from. intros ([r y] & -> & Hy)%list_elem_of_fmap.
  apply list_elem_of_join in Hy as (l & Hy & Hl).
  apply elem_of_lookup_imap in Hl as (p & part & -> & Hp).
  apply elem_of_lookup_imap in Hy as (i & r' & [= -> ->] & Hi).
  exists p, part, i. eauto using lookup_lt_Some.
Qed.

Lemma NoDup_partition_ids (q : nat) (part : list A) :
  Z.of_nat q < 2 ^ 31 → Z.of_nat (length part) ≤ 2 ^ 33 →
  NoDup (snd <$> imap (λ i (r : A), (r, monotonically_increasing_id q i))
                      part).
Proof.
  intros Hq Hlen. apply NoDup_alt. intros i j x.
  rewrite !list_lookup_fmap, !list_lookup_imap.
  destruct (part !! i) as [ri|] eqn:Hi; [|done].
  destruct (part !! j) as [rj|] eqn:Hj; [|done].
  cbn. intros [= <-] [= Heq].
  apply lookup_lt_Some in Hi, Hj.
  apply monotonically_increasing_id_inj in Heq; lia.
Qed.

Lemma NoDup_ids_from k (df : DataFrame A) :
  Z.of_nat (k + length df) ≤ 2 ^ 31 →
  Forall (λ part : list A, Z.of_nat (length part) ≤ 2 ^ 33) df →
  NoDup (ids_from k df).
Proof.
  revert k. induction df as [|part df IH]; intros k Hk Hdf.
  - constructor.
  - apply Forall_cons in Hdf as [Hpart Hdf]. cbn [length] in Hk.
    assert (ids_from k (part :: df)
            = (snd <$> imap (λ i (r : A),
                               (r, monotonically_increasing_id (k + 0) i))
                            part)
              ++ ids_from (S k) df) as ->.
    { unfold ids_from. rewrite imap_cons. csimpl. rewrite fmap_app.
      do 3 f_equal. apply imap_ext. intros p part' _. cbn.
      by replace (k + S p)%nat with (S k + p)%nat by lia. }
    apply NoDup_app. split_and!.
    + apply NoDup_partition_ids; lia.
    + intros x Hx Hx'.
      apply list_elem_of_fmap in Hx as ([r y] & -> & Hy).
      apply elem_of_lookup_imap in Hy as (i & r' & [= -> ->] & Hi).
      apply lookup_lt_Some in Hi.
      apply elem_of_ids_from in Hx' as (p & part' & i' & Hp & Hi' & Heq).
      pose proof (lookup_lt_Some _ _ _ Hp) as Hplt.
      rewrite Forall_lookup in Hdf. specialize (Hdf _ _ Hp). cbn in Hdf.
      apply monotonically_increasing_id_inj in Heq; lia.
    + apply IH; [lia|done].
Qed.

(** Within the documented range no two rows get the same identifier. *)
Lemma NoDup_withColumn_id (df : DataFrame A) :
  within_id_range df → NoDup (snd <$> collect (withColumn_id pair df)).
Proof.
  intros [Hlen Hparts]. apply (NoDup_ids_from 0 df); [lia|done].
Qed.

End numbering_distinct.

(** * The join *)

Lemma filter_none {A} (P : A → Prop) `{∀ x, Decision (P x)} (l : list A) :
  (∀ x, x ∈ l → ¬ P x) → filter P l = [].
Proof.
  induction l as [|x l IH]; intros HP; [done|].
  rewrite filter_cons_False by (apply HP; left).
  apply IH. intros y Hy. apply HP. by right.
Qed.

Section list_facts.
Context {A B : Type}.

Lemma filter_fmap (f : A → B) (P : B → Prop) `{∀ y, Decision (P y)}
    (l : list A) :
  filter P (f <$> l) = f <$> filter (λ x, P (f x)) l.
Proof.
  induction l as [|x l IH]; [done|].
  csimpl. rewrite !filter_cons, IH. by destruct (decide (P (f x))).
Qed.

(** Filtering the rows a bind produces, by a property that each source
    element decides for all its rows, is filtering the source. *)
Lemma filter_bind (g : A → list B) (P : B → Prop) (Q : A → Prop)
    `{∀ y, Decision (P y)} `{∀ x, Decision (Q x)} (l : list A) :
  (∀ x y, x ∈ l → y ∈ g x → P y ↔ Q x) →
  filter P (l ≫= g) = filter Q l ≫= g.
Proof.
  induction l as [|x l IH]; intros HPQ; [done|].
  rewrite bind_cons, filter_app, IH, filter_cons
    by (intros; apply HPQ; [by right|done]).
  destruct (decide (Q x)) as [HQ|HQ].
  - rewrite bind_cons. f_equal. apply (filter_all P).
    intros y Hy. by apply (HPQ x y (list_elem_of_here x l) Hy).
  - rewrite (filter_none P (g x)); [done|].
    intros y Hy HP. by apply HQ, (HPQ x y (list_elem_of_here x l) Hy).
Qed.

Lemma filter_unique_key `{EqDecision B} (f : A → B) (l : list A) (x : A) :
  NoDup (f <$> l) → x ∈ l → filter (λ y, f y = f x) l = [x].
Proof.
  induction l as [|y l IH]; csimpl; intros Hnd Hx.
  - by apply elem_of_nil in Hx.
  - apply NoDup_cons in Hnd as [Hy Hnd]. rewrite filter_cons.
    apply elem_of_cons in Hx as [->|Hx].
    + rewrite decide_True by done. f_equal.
      apply filter_none. intros z Hz Heq.
      apply Hy. rewrite <- Heq. by apply list_elem_of_fmap_2.
    + rewrite decide_False; [by apply IH|].
      intros Heq. apply Hy. rewrite Heq. by apply list_elem_of_fmap_2.
Qed.

(** A bind that maps every element to at most one row, each carrying
    its source's key, keeps the keys distinct. *)
Lemma NoDup_bind_key {K : Type} (g : A → list B) (key : A → K)
    (key' : B → K) (l : list A) :
  (∀ x y, x ∈ l → y ∈ g x → key' y = key x) →
  (∀ x, x ∈ l → (length (g x) ≤ 1)%nat) →
  NoDup (key <$> l) → NoDup (key' <$> (l ≫= g)).
Proof.
  induction l as [|x l IH]; csimpl; intros Hkey Hlen Hnd; [constructor|].
  apply NoDup_cons in Hnd as [Hx Hnd].
  rewrite fmap_app. apply NoDup_app. split_and!.
  - pose proof (Hlen x ltac:(left)) as Hx1.
    destruct (g x) as [|y [|??]]; cbn in *;
      [constructor|apply NoDup_singleton|lia].
  - intros k (y & -> & Hy)%list_elem_of_fmap
             (y' & Hk & (x' & Hy' & Hx')%list_elem_of_bind)%list_elem_of_fmap.
    apply Hx. rewrite (Hkey x y) in Hk by (done || left).
    rewrite (Hkey x' y') in Hk by (done || by right).
    rewrite Hk. by apply list_elem_of_fmap_2.
  - apply IH; [|intros; apply Hlen; by right|done].
    intros. apply Hkey; [by right|done].
Qed.

End list_facts.

Section numbering_select.
Context {A A' B : Type}.

Lemma withColumn_id_select (g : A → A') (f : A' → Z → B) (df : DataFrame A) :
  withColumn_id f (select g df) = withColumn_id (λ r, f (g r)) df.
Proof.
  unfold withColumn_id, select. rewrite imap_fmap.
  apply imap_ext. intros p part _. cbn. by rewrite imap_fmap.
Qed.

Lemma withColumn_id_pair (h : A * Z → B) (df : DataFrame A) :
  withColumn_id (λ r id, h (r, id)) df = select h (withColumn_id pair df).
Proof.
  unfold withColumn_id, select. rewrite fmap_imap.
  apply imap_ext. intros p part _. cbn. by rewrite fmap_imap.
Qed.

End numbering_select.

Lemma fmap_bind {A B C} (f : B → C) (g : A → list B) (l : list A) :
  f <$> (l ≫= g) = l ≫= λ x, f <$> g x.
Proof.
  induction l as [|x l IH]; [done|].
  by rewrite !bind_cons, fmap_app, IH.
Qed.

Section songplays_facts.
Context `{Engine}.

Lemma with_start_time_select (df : DataFrame Log.t) :
  with_start_time df = select event_of df.
Proof.
  unfold with_start_time, withColumn, select.
  rewrite <- !list_fmap_compose. apply list_fmap_ext. intros _ part _. cbn.
  by rewrite <- !list_fmap_compose.
Qed.

(** The fact table, event by event. *)
Lemma collect_songplays (df : DataFrame Log.t) (songs_art : DataFrame Mapping.t) :
  collect (songplays (with_start_time df) songs_art)
  = collect (withColumn_id pair df) ≫= λ l, joined_with songs_art l.1 l.2.
Proof.
  unfold songplays.
  rewrite collect_select, collect_join, with_start_time_select.
  rewrite withColumn_id_select.
  rewrite (withColumn_id_pair (λ l, (event_of l.1, l.2))), collect_select.
  rewrite list_fmap_bind, fmap_bind.
  apply list_bind_ext; [|done]. intros [r id]. cbn.
  unfold joined_with. by rewrite <- list_fmap_compose.
Qed.

Lemma songplay_id_joined_with songs_art r id row :
  row ∈ joined_with songs_art r id → Songplay.songplay_id row = id.
Proof. by intros (m & -> & _)%list_elem_of_fmap. Qed.

(** Within the range of the identifiers, the rows of the fact table that
    carry the identifier of an event are the rows joined with it. *)
Lemma songplays_of_id (df : DataFrame Log.t) songs_art r id :
  within_id_range df →
  (r, id) ∈ collect (withColumn_id pair df) →
  filter (λ row, Songplay.songplay_id row = id)
         (collect (songplays (with_start_time df) songs_art))
  = joined_with songs_art r id.
Proof.
  intros Hrange Hin. rewrite collect_songplays.
  rewrite (filter_bind _ _ (λ l, l.2 = (r, id).2)).
  - rewrite (filter_unique_key snd); [|by apply NoDup_withColumn_id|done].
    by rewrite bind_singleton.
  - intros [r' id'] row _ Hrow. cbn in *.
    by rewrite (songplay_id_joined_with _ _ _ _ Hrow).
Qed.

End songplays_facts.

(** * The join condition and the fact table *)

Lemma col_eq_Some {A} `{EqDecision A} (x : option A) (a : A) :
  col_eq (Some a) x ↔ x = Some a.
Proof.
  destruct x as [b|]; cbn; [|done].
  rewrite bool_decide_spec. naive_solver.
Qed.

Lemma col_eq_eq {A} `{EqDecision A} (x y : option A) : col_eq x y → x = y.
Proof.
  destruct x as [a|]; [|done]. intros ->%col_eq_Some. done.
Qed.

Lemma on_artist_and_song_spec `{Engine} (r : Log.t) (m : Mapping.t) :
  on_artist_and_song r m
  ↔ ∃ a s, Log.artist r = Some a ∧ Log.song r = Some s
           ∧ Mapping.artist_name m = Some a ∧ Mapping.title m = Some s.
Proof.
  unfold on_artist_and_song. rewrite andb_True. split.
  - destruct (Log.artist r) as [a|], (Log.song r) as [s|]; try (cbn; tauto).
    rewrite !col_eq_Some. eauto 8.
  - intros (a & s & -> & -> & -> & ->). cbn. by rewrite !bool_decide_true.
Qed.

(** A completed run has written the fact table, event by event. *)
Lemma fact_table_written `{Engine} (df0 : DataFrame Log.t)
    (output_data : string) (w w' : World) (songs_art : DataFrame Mapping.t) :
  temp_views w !! "sng_art_mapping" = Some songs_art →
  process_log_data df0 output_data w = (w', Done ()) →
  ∃ parts,
    store w' !! (output_data +:+ "/songplays.parquet")
    = Some (SongplaysParquet parts)
    ∧ rows_of parts
      ≡ₚ (collect (withColumn_id pair (next_song df0))
            ≫= λ l, joined_with songs_art l.1 l.2).
Proof.
  intros Hview Hrun.
  apply run_done in Hrun as (_ & _ & _ & _ & songs_art' & Hview' & ->).
  rewrite Hview in Hview'. injection Hview' as <-. cbn [store].
  eexists. split; [apply lookup_insert_eq|].
  by rewrite rows_of_partitionBy, collect_songplays.
Qed.

(** * The filter and the dimension tables of the log *)

Section log_tables.
Context `{Engine}.

Lemma elem_of_next_song (df0 : DataFrame Log.t) (r : Log.t) :
  r ∈ collect (next_song df0)
  ↔ r ∈ collect df0 ∧ Log.page r = Some "NextSong".
Proof.
  unfold next_song. rewrite collect_where, list_elem_of_filter.
  split.
  - intros [Hpage ?]. split; [done|].
    apply col_eq_eq in Hpage. done.
  - intros [? ->]. split; [|done]. cbn. by rewrite bool_decide_true.
Qed.

Lemma next_song_drops (before after : DataFrame Log.t) (l1 l2 : list Log.t)
    (r : Log.t) :
  Log.page r ≠ Some "NextSong" →
  next_song (before ++ (l1 ++ r :: l2) :: after)
  = next_song (before ++ (l1 ++ l2) :: after).
Proof.
  intros Hpage. unfold next_song, where_.
  rewrite !fmap_app, !fmap_cons, !filter_app. do 3 f_equal.
  apply filter_cons_False. by intros ?%col_eq_eq.
Qed.

Lemma elem_of_users_table (df : DataFrame Log.t) (u : User.t) :
  u ∈ collect (users_table df) ↔ ∃ r, r ∈ collect df ∧ u = user_columns r.
Proof.
  unfold users_table.
  rewrite elem_of_dropDuplicates, collect_select, list_elem_of_fmap.
  split; [intros (r & -> & ?)|intros (r & ? & ->)]; eauto.
Qed.

Lemma collect_with_start_time (df : DataFrame Log.t) :
  collect (with_start_time df) = event_of <$> collect df.
Proof. by rewrite with_start_time_select, collect_select. Qed.

(** The time table is the deduplicated list of timestamps, each with its
    derived columns. *)
Lemma collect_time_table (df : DataFrame Log.t) :
  collect (time_table (with_start_time df))
  = time_of <$> remove_dups (start_time_of <$> collect df).
Proof.
  unfold time_table.
  rewrite !collect_withColumn, collect_dropDuplicates, collect_select,
    collect_with_start_time, <- !list_fmap_compose.
  set (tick := λ t, Tick.mk t (year t) (month t)).
  transitivity
    (time_of <$> (Tick.start_time <$>
       remove_dups (tick <$> (start_time_of <$> collect df)))).
  - rewrite <- !list_fmap_compose. apply list_fmap_ext.
    intros _ k (t & -> & _)%list_elem_of_lookup_2%elem_of_remove_dups
                              %list_elem_of_fmap.
    done.
  - f_equal.
    assert (Inj (=) (=) tick) by (by intros t1 t2 [= ->]).
    rewrite (remove_dups_fmap tick), <- list_fmap_compose.
    etrans; [|apply list_fmap_id]. by apply list_fmap_ext.
Qed.

End log_tables.

(** * What is in the store after a run *)

Section after_the_run.
Context `{Engine}.
Implicit Types (w : World).

Lemma users_written (df0 : DataFrame Log.t) output_data w :
  output_data +:+ "/users.parquet" ∉ read_only w →
  store (process_log_data df0 output_data w).1
    !! (output_data +:+ "/users.parquet")
  = Some (users_parquet df0).
Proof.
  intros Hu. rewrite process_log_data_run. cbn zeta.
  rewrite decide_False by done.
  destruct (decide (output_data +:+ "/time.parquet" ∈ read_only w));
    [apply lookup_insert_eq|].
  destruct (lambda_returns (next_song df0));
    [|cbn [fst store]; rewrite lookup_delete_ne by auto;
      apply lookup_insert_eq].
  destruct (temp_views w !! "sng_art_mapping");
    [|cbn [fst store]; rewrite lookup_insert_ne by auto;
      apply lookup_insert_eq].
  destruct (decide (output_data +:+ "/songplays.parquet" ∈ read_only w));
    cbn [fst store]; rewrite ?lookup_insert_ne by auto;
    apply lookup_insert_eq.
Qed.

(** The time table is written when its job gets through: the path is
    not refused and the lambda returns on every filtered row. *)
Lemma time_written (df0 : DataFrame Log.t) output_data w :
  output_data +:+ "/users.parquet" ∉ read_only w →
  output_data +:+ "/time.parquet" ∉ read_only w →
  lambda_returns (next_song df0) →
  store (process_log_data df0 output_data w).1
    !! (output_data +:+ "/time.parquet")
  = Some (time_parquet df0).
Proof.
  intros Hu Ht Hret. rewrite process_log_data_run. cbn zeta.
  rewrite !decide_False by done.
  destruct (lambda_returns (next_song df0)); [|done].
  destruct (temp_views w !! "sng_art_mapping"); [|apply lookup_insert_eq].
  destruct (decide (output_data +:+ "/songplays.parquet" ∈ read_only w));
    cbn [fst store]; rewrite ?lookup_insert_ne by auto;
    apply lookup_insert_eq.
Qed.

(** Where the lambda raises on a filtered row, the run raises from the
    time write, with the users table written. *)
Lemma lambda_raises (df0 : DataFrame Log.t) output_data w :
  output_data +:+ "/users.parquet" ∉ read_only w →
  output_data +:+ "/time.parquet" ∉ read_only w →
  ¬ lambda_returns (next_song df0) →
  (process_log_data df0 output_data w).2 = Raised PythonException.
Proof.
  intros Hu Ht Hret. rewrite process_log_data_run. cbn zeta.
  rewrite !decide_False by done.
  by destruct (lambda_returns (next_song df0)).
Qed.

(** A run that does not complete leaves songplays.parquet as it was. *)
Lemma songplays_untouched (df0 : DataFrame Log.t) output_data w :
  (process_log_data df0 output_data w).2 ≠ Done () →
  store (process_log_data df0 output_data w).1
    !! (output_data +:+ "/songplays.parquet")
  = store w !! (output_data +:+ "/songplays.parquet").
Proof.
  rewrite process_log_data_run. cbn zeta.
  destruct (decide (output_data +:+ "/users.parquet" ∈ read_only w));
    [done|].
  destruct (decide (output_data +:+ "/time.parquet" ∈ read_only w));
    [intros _; cbn; by rewrite lookup_insert_ne by auto|].
  destruct (lambda_returns (next_song df0));
    [|intros _; cbn;
      by rewrite lookup_delete_ne, lookup_insert_ne by auto].
  destruct (temp_views w !! "sng_art_mapping");
    [|intros _; cbn; by rewrite !lookup_insert_ne by auto].
  destruct (decide (output_data +:+ "/songplays.parquet" ∈ read_only w));
    [intros _; cbn; by rewrite !lookup_insert_ne by auto|done].
Qed.

(** A run completes only with the view registered, and then it has
    written the fact table. *)
Lemma completed_run (df0 : DataFrame Log.t) output_data w w' :
  process_log_data df0 output_data w = (w', Done ()) →
  ∃ songs_art,
    temp_views w !! "sng_art_mapping" = Some songs_art
    ∧ store w' !! (output_data +:+ "/songplays.parquet")
      = Some (songplays_parquet df0 songs_art).
Proof.
  intros (_ & _ & _ & _ & songs_art & Hview & ->)%run_done.
  exists songs_art. split; [done|]. apply lookup_insert_eq.
Qed.

End after_the_run.

Lemma songs_written (df : DataFrame Catalog.t) output_data w :
  output_data +:+ "/songs.parquet" ∉ read_only w →
  store (process_song_data df output_data w).1
    !! (output_data +:+ "/songs.parquet")
  = Some (SongsParquet
            (partitionBy (λ r, (Song.year r, Song.artist_id r))
                         (songs_table df))).
Proof.
  intros Hs. rewrite process_song_data_run. cbn zeta.
  rewrite decide_False by done.
  destruct (decide (_ ∈ _)); cbn [fst store].
  - apply lookup_insert_eq.
  - rewrite lookup_insert_ne by auto. apply lookup_insert_eq.
Qed.

(** * The claims *)

(** C1. The fact table is an inner join of the filtered events with the
    lookup table.  When the view is registered and the run completes, the
    rows written to songplays.parquet are, up to their order, the rows
    joined with each filtered event in turn.  For the event at position
    [i] of partition [p] after the filter: no row is joined with it when
    its (artist, song) pair equals the (artist_name, title) pair of no
    lookup row, and none when its artist or its song is null; when both
    are present and exactly one lookup row carries that pair, exactly one
    row is joined with it, built from the event and from that lookup row
    (its song_id and artist_id).  Every written row carries the song_id
    and artist_id of a lookup row.  Within the range of the identifiers,
    the rows joined with the event are, up to their order, the written
    rows that carry its songplay_id. *)
Theorem songplays_inner_join `{Engine} (df0 : DataFrame Log.t)
    (output_data : string) (w w' : World) (songs_art : DataFrame Mapping.t) :
  temp_views w !! "sng_art_mapping" = Some songs_art →
  process_log_data df0 output_data w = (w', Done ()) →
  ∃ parts,
    store w' !! (output_data +:+ "/songplays.parquet")
    = Some (SongplaysParquet parts)
    ∧ rows_of parts
      ≡ₚ (collect (withColumn_id pair (next_song df0))
            ≫= λ l, joined_with songs_art l.1 l.2)
    ∧ (∀ row, row ∈ rows_of parts →
         ∃ m, m ∈ collect songs_art
              ∧ Songplay.song_id row = Mapping.song_id m
              ∧ Songplay.artist_id row = Mapping.artist_id m)
    ∧ ∀ p part i r,
        next_song df0 !! p = Some part → part !! i = Some r →
        let id := monotonically_increasing_id p i in
        ((∀ m, m ∈ collect songs_art →
               (Log.artist r, Log.song r)
               ≠ (Mapping.artist_name m, Mapping.title m)) →
         joined_with songs_art r id = [])
        ∧ (Log.artist r = None ∨ Log.song r = None →
           joined_with songs_art r id = [])
        ∧ (∀ a s m,
             Log.artist r = Some a → Log.song r = Some s →
             filter (λ m, (Mapping.artist_name m, Mapping.title m)
                          = (Some a, Some s)) (collect songs_art) = [m] →
             joined_with songs_art r id = [songplay_row (event_of r, id, m)])
        ∧ (within_id_range (next_song df0) →
           filter (λ row, Songplay.songplay_id row = id) (rows_of parts)
           ≡ₚ joined_with songs_art r id).
Proof.
  intros Hview Hrun.
  apply run_done in Hrun as (_ & _ & _ & _ & songs_art' & Hview' & ->).
  rewrite Hview in Hview'. injection Hview' as <-. cbn [store].
  eexists. split; [apply lookup_insert_eq|].
  pose proof (rows_of_partitionBy
                (λ r, (Songplay.year r, Songplay.month r))
                (songplays (with_start_time (next_song df0)) songs_art))
    as Hrows.
  split_and!.
  - by rewrite Hrows, collect_songplays.
  - intros row. rewrite Hrows, collect_songplays.
    intros ([r id] & Hrow & _)%list_elem_of_bind.
    apply list_elem_of_fmap in Hrow as (m & -> & Hm%list_elem_of_filter).
    exists m. by destruct Hm.
  - intros p part i r Hp Hi.
    set (id := monotonically_increasing_id p i). split_and!.
    + intros Hnone. unfold joined_with. rewrite filter_none; [done|].
      intros m Hm (a & s & Ha & Hs & Ha' & Hs')%on_artist_and_song_spec.
      apply (Hnone m Hm). congruence.
    + intros Hnull. unfold joined_with. rewrite filter_none; [done|].
      intros m Hm (a & s & Ha & Hs & _)%on_artist_and_song_spec.
      destruct Hnull; congruence.
    + intros a s m Ha Hs Hone. unfold joined_with.
      rewrite (list_filter_iff _
                 (λ m, (Mapping.artist_name m, Mapping.title m)
                       = (Some a, Some s))), Hone; [done|].
      intros m'. rewrite on_artist_and_song_spec, Ha, Hs. split.
      * by intros (a0 & s0 & [= <-] & [= <-] & -> & ->).
      * intros [= -> ->]. eauto 8.
    + intros Hrange. rewrite Hrows.
      rewrite (songplays_of_id _ _ r id); [done|done|].
      apply elem_of_withColumn_id. eauto 8.
Qed.

Lemma songplays_inner_join_witness :
  ∃ parts,
    store (process_log_data (H:=UTC.engine)
             [[Scenario.play; Scenario.home]] "out" Scenario.loaded).1
      !! ("out" +:+ "/songplays.parquet")
    = Some (SongplaysParquet parts)
    ∧ length (rows_of parts) = 1%nat.
Proof.
  destruct (songplays_inner_join (H:=UTC.engine)
              [[Scenario.play; Scenario.home]] "out" Scenario.loaded
              (process_log_data (H:=UTC.engine)
                 [[Scenario.play; Scenario.home]] "out" Scenario.loaded).1
              (sng_art_mapping [[Scenario.song]]))
    as (parts & Hstore & Hrows & _).
  - vm_compute. reflexivity.
  - vm_compute. reflexivity.
  - exists parts. split; [exact Hstore|].
    rewrite (Permutation_length Hrows). vm_compute. reflexivity.
Defined.




(** C3. Without the view sng_art_mapping the run of [process_log_data]
    never completes and never writes songplays.parquet, empty or not;
    when it gets as far as the join, that is, when the users and the time
    table could be written and the lambda of the udf returned on every
    "NextSong" record, what it raises is the analysis exception that
    names the missing view. (Where the lambda raises, the write of the
    time table has failed before the view is asked for.) *)
Theorem missing_view_raises `{Engine} (df0 : DataFrame Log.t)
    (output_data : string) (w : World) :
  temp_views w !! "sng_art_mapping" = None →
  (process_log_data df0 output_data w).2 ≠ Done ()
  ∧ store (process_log_data df0 output_data w).1
      !! (output_data +:+ "/songplays.parquet")
    = store w !! (output_data +:+ "/songplays.parquet")
  ∧ (output_data +:+ "/users.parquet" ∉ read_only w →
     output_data +:+ "/time.parquet" ∉ read_only w →
     (process_log_data df0 output_data w).2
     = if lambda_returns (next_song df0)
       then Raised (AnalysisException "sng_art_mapping")
       else Raised PythonException).
Proof.
  intros Hview.
  assert ((process_log_data df0 output_data w).2 ≠ Done ()) as Hfail.
  { destruct (process_log_data df0 output_data w) as [w' o] eqn:Hrun.
    cbn [snd]. intros ->.
    apply run_done in Hrun as (_ & _ & _ & _ & songs_art & Hsome & _).
    by rewrite Hview in Hsome. }
  split_and!; [done|by apply songplays_untouched|].
  intros Hu Ht. rewrite process_log_data_run. cbn zeta.
  rewrite Hview, !decide_False by done.
  by destruct (lambda_returns (next_song df0)).
Qed.

Lemma missing_view_raises_witness :
  (process_log_data (H:=UTC.engine) [[Scenario.play]] "out" Scenario.empty).2
  = Raised (AnalysisException "sng_art_mapping").
Proof.
  refine (proj2 (proj2 (missing_view_raises (H:=UTC.engine) [[Scenario.play]]
                          "out" Scenario.empty _)) _ _).
  - vm_compute. reflexivity.
  - apply not_elem_of_empty.
  - apply not_elem_of_empty.
Defined.

(** C4. A log record whose page is not "NextSong" contributes to no
    output of [process_log_data]: with the record or without it, wherever
    it stands in whichever partition, the run ends in the same world
    (the same users, time and songplays tables) with the same outcome. *)
Theorem other_pages_contribute_nothing `{Engine}
    (before after : DataFrame Log.t) (l1 l2 : list Log.t) (r : Log.t)
    (output_data : string) (w : World) :
  Log.page r ≠ Some "NextSong" →
  process_log_data (before ++ (l1 ++ r :: l2) :: after) output_data w
  = process_log_data (before ++ (l1 ++ l2) :: after) output_data w.
Proof.
  intros Hpage. unfold process_log_data. by rewrite next_song_drops.
Qed.

Lemma other_pages_contribute_nothing_witness :
  process_log_data (H:=UTC.engine)
    ([] ++ ([Scenario.play] ++ Scenario.home :: [Scenario.paid]) :: [])
    "out" Scenario.loaded
  = process_log_data (H:=UTC.engine)
      ([] ++ ([Scenario.play] ++ [Scenario.paid]) :: []) "out" Scenario.loaded.
Proof.
  apply (other_pages_contribute_nothing (H:=UTC.engine)).
  vm_compute. discriminate.
Defined.

(** C5. Rows lie in the partition of their own key.  A row that a run of
    [process_song_data] wrote to songs.parquet under (year = Y,
    artist_id = A) has year Y and artist_id A; a row that a completed
    run of [process_log_data] wrote to songplays.parquet under (year = Y,
    month = M) has a start_time whose year is Y and whose month is M. *)
Theorem partition_keys_correct `{Engine} :
  (∀ (df : DataFrame Catalog.t) (output_data : string) (w : World)
     parts Y A rows row,
     output_data +:+ "/songs.parquet" ∉ read_only w →
     store (process_song_data df output_data w).1
       !! (output_data +:+ "/songs.parquet") = Some (SongsParquet parts) →
     ((Y, A), rows) ∈ parts → row ∈ rows →
     Song.year row = Y ∧ Song.artist_id row = A)
  ∧ (∀ (df0 : DataFrame Log.t) (output_data : string) (w w' : World)
       parts Y M rows row,
       process_log_data df0 output_data w = (w', Done ()) →
       store w' !! (output_data +:+ "/songplays.parquet")
       = Some (SongplaysParquet parts) →
       ((Y, M), rows) ∈ parts → row ∈ rows →
       year (Songplay.start_time row) = Y
       ∧ month (Songplay.start_time row) = M).
Proof.
  split.
  - intros df output_data w parts Y A rows row Hs Hstore Hpart Hrow.
    rewrite songs_written in Hstore by done. injection Hstore as <-.
    destruct (elem_of_partitionBy _ _ _ _ _ Hpart Hrow) as [[= <- <-] _].
    done.
  - intros df0 output_data w w' parts Y M rows row Hrun Hstore Hpart Hrow.
    apply completed_run in Hrun as (songs_art & _ & Hfact).
    rewrite Hfact in Hstore. injection Hstore as <-.
    destruct (elem_of_partitionBy _ _ _ _ _ Hpart Hrow) as [[= <- <-] Hin].
    rewrite collect_songplays in Hin.
    apply list_elem_of_bind in Hin as ([r id] & Hin & _).
    by apply list_elem_of_fmap in Hin as (m & -> & _).
Qed.

Lemma partition_keys_correct_witness :
  (Song.year (song_columns Scenario.cover) = Some 2001
   ∧ Song.artist_id (song_columns Scenario.cover) = Some "A1")
  ∧ (year (Engine:=UTC.engine)
       (Songplay.start_time
          (songplay_row
             (event_of (H:=UTC.engine) Scenario.paid,
              monotonically_increasing_id 1 0,
              mapping_columns Scenario.song))) = Some 2000
     ∧ month (Engine:=UTC.engine)
         (Songplay.start_time
            (songplay_row
               (event_of (H:=UTC.engine) Scenario.paid,
                monotonically_increasing_id 1 0,
                mapping_columns Scenario.song))) = Some 1).
Proof.
  split.
  - apply (proj1 (partition_keys_correct (H:=UTC.engine))
             [[Scenario.song; Scenario.cover]] "out" Scenario.empty
             (partitionBy (λ r, (Song.year r, Song.artist_id r))
                          (songs_table [[Scenario.song; Scenario.cover]]))
             (Some 2001) (Some "A1")
             [song_columns Scenario.cover]).
    + apply not_elem_of_empty.
    + vm_compute. reflexivity.
    + vm_compute. do 2 constructor.
    + constructor.
  - apply (proj2 (partition_keys_correct (H:=UTC.engine))
             [[Scenario.play; Scenario.home]; [Scenario.paid]] "out"
             Scenario.loaded
             (process_log_data (H:=UTC.engine)
                [[Scenario.play; Scenario.home]; [Scenario.paid]] "out"
                Scenario.loaded).1
             (partitionBy (λ r, (Songplay.year r, Songplay.month r))
                (songplays
                   (with_start_time (H:=UTC.engine)
                      (next_song
                         [[Scenario.play; Scenario.home]; [Scenario.paid]]))
                   (sng_art_mapping [[Scenario.song]])))
             (Some 2000) (Some 1)
             (collect
                (songplays
                   (with_start_time (H:=UTC.engine)
                      (next_song
                         [[Scenario.play; Scenario.home]; [Scenario.paid]]))
                   (sng_art_mapping [[Scenario.song]])))).
    + vm_compute. reflexivity.
    + vm_compute. reflexivity.
    + vm_compute. constructor.
    + vm_compute. do 2 constructor.
Defined.

(** C6. When the users and the time table can be written and the lambda
    of the udf returns on every "NextSong" record (each has a ts, within
    the range of datetime), the time table written holds exactly one row
    for each start_time of the NextSong events: start_time is unique in
    it, although the rows were deduplicated on (start_time, year, month),
    because every other column of a row is computed from its start_time.
    (Where the lambda raises on a record, the write raises and no time
    table is left: see [lambda_raises].) *)
Theorem time_rows_unique `{Engine} (df0 : DataFrame Log.t)
    (output_data : string) (w : World) :
  output_data +:+ "/users.parquet" ∉ read_only w →
  output_data +:+ "/time.parquet" ∉ read_only w →
  lambda_returns (next_song df0) →
  ∃ parts,
    store (process_log_data df0 output_data w).1
      !! (output_data +:+ "/time.parquet") = Some (TimeParquet parts)
    ∧ NoDup (TimeRow.start_time <$> rows_of parts)
    ∧ (∀ t, t ∈ TimeRow.start_time <$> rows_of parts
            ↔ ∃ r ts, r ∈ collect df0 ∧ Log.page r = Some "NextSong"
                      ∧ Log.ts r = Some ts ∧ get_timestamp ts = Some t)
    ∧ (∀ row, row ∈ rows_of parts → row = time_of (TimeRow.start_time row)).
Proof.
  intros Hu Ht Hret. eexists. split; [by apply time_written|].
  pose proof (rows_of_partitionBy (λ r, (TimeRow.year r, TimeRow.month r))
                (time_table (with_start_time (next_song df0)))) as Hrows.
  rewrite collect_time_table in Hrows.
  assert (TimeRow.start_time <$> (time_of <$>
            remove_dups (start_time_of <$> collect (next_song df0)))
          = remove_dups (start_time_of <$> collect (next_song df0))) as Hts.
  { rewrite <- list_fmap_compose.
    etrans; [|apply list_fmap_id]. by apply list_fmap_ext. }
  split_and!.
  - rewrite Hrows, Hts. apply NoDup_remove_dups.
  - intros t. rewrite Hrows, Hts, elem_of_remove_dups, list_elem_of_fmap.
    split.
    + intros (r & -> & Hr).
      destruct (proj1 (lambda_returns_spec _) Hret r Hr)
        as (ts & t & Hsome & Hget).
      apply elem_of_next_song in Hr as [??].
      exists r, ts. split_and!; [done..|].
      by rewrite (start_time_of_returns r ts t).
    + intros (r & ts & ? & ? & Hsome & Hget). exists r.
      split; [|by rewrite elem_of_next_song].
      symmetry. by apply (start_time_of_returns r ts).
  - intros row. rewrite Hrows. by intros (t & -> & _)%list_elem_of_fmap.
Qed.

Lemma time_rows_unique_witness :
  ∃ parts,
    store (process_log_data (H:=UTC.engine)
             [[Scenario.play; Scenario.home]; [Scenario.paid; Scenario.play]]
             "out" Scenario.empty).1
      !! ("out" +:+ "/time.parquet") = Some (TimeParquet parts)
    ∧ NoDup (TimeRow.start_time <$> rows_of parts).
Proof.
  destruct (time_rows_unique (H:=UTC.engine)
              [[Scenario.play; Scenario.home]; [Scenario.paid; Scenario.play]]
              "out" Scenario.empty)
    as (parts & Hstore & Hnd & _).
  - apply not_elem_of_empty.
  - apply not_elem_of_empty.
  - vm_compute. exact I.
  - exists parts. split; [exact Hstore|exact Hnd].
Defined.



(** C8, as stated, fails: a catalog with two recordings of one title by
    one artist joins one event with two lookup rows, and both fact rows
    carry the identifier the event was given before the join. *)
Lemma songplay_id_repeated :
  (main (H:=UTC.engine) [[Scenario.song; Scenario.cover]] [[Scenario.play]]
        "out" Scenario.empty).2 = Done ()
  ∧ ∃ parts,
      store (main (H:=UTC.engine) [[Scenario.song; Scenario.cover]]
                  [[Scenario.play]] "out" Scenario.empty).1
        !! "out/songplays.parquet"
      = Some (SongplaysParquet parts)
      ∧ ¬ NoDup (Songplay.songplay_id <$> rows_of parts).
Proof.
  split; [vm_compute; reflexivity|].
  eexists. split; [vm_compute; reflexivity|].
  cbn. intros [Hin _]%NoDup_cons. apply Hin. left.
Qed.

(** C8, amended.  When the view is registered, the run completes and the
    filtered log is within the range of the identifiers, distinct event
    rows are given distinct identifiers; and when, moreover, every
    filtered event matches at most one row of the lookup table, the
    songplay_id values of the rows written to songplays.parquet are
    pairwise distinct. *)
Theorem songplay_id_distinct `{Engine} (df0 : DataFrame Log.t)
    (output_data : string) (w w' : World) (songs_art : DataFrame Mapping.t) :
  temp_views w !! "sng_art_mapping" = Some songs_art →
  process_log_data df0 output_data w = (w', Done ()) →
  within_id_range (next_song df0) →
  NoDup (snd <$> collect (withColumn_id pair (next_song df0)))
  ∧ (Forall (λ r, (length (filter (λ m, on_artist_and_song r m)
                                    (collect songs_art)) ≤ 1)%nat)
            (collect (next_song df0)) →
     ∃ parts,
       store w' !! (output_data +:+ "/songplays.parquet")
       = Some (SongplaysParquet parts)
       ∧ NoDup (Songplay.songplay_id <$> rows_of parts)).
Proof.
  intros Hview Hrun Hrange.
  split; [by apply NoDup_withColumn_id|]. intros Hone.
  rewrite Forall_forall in Hone.
  destruct (fact_table_written df0 output_data w w' songs_art Hview Hrun)
    as (parts & Hstore & Hrows).
  exists parts. split; [done|]. rewrite Hrows.
  apply (NoDup_bind_key _ snd).
  - intros [r id] row _ Hrow. by apply songplay_id_joined_with in Hrow.
  - intros [r id] (p & part & i & r' & Hp & Hi & [= -> ->])%elem_of_withColumn_id.
    unfold joined_with. rewrite length_fmap. apply Hone.
    apply list_elem_of_join. exists part.
    eauto using list_elem_of_lookup_2.
  - by apply NoDup_withColumn_id.
Qed.

Lemma songplay_id_distinct_witness :
  ∃ parts,
    store (process_log_data (H:=UTC.engine)
             [[Scenario.play; Scenario.home]; [Scenario.paid]] "out"
             Scenario.loaded).1
      !! ("out" +:+ "/songplays.parquet")
    = Some (SongplaysParquet parts)
    ∧ NoDup (Songplay.songplay_id <$> rows_of parts).
Proof.
  refine (proj2 (songplay_id_distinct (H:=UTC.engine)
            [[Scenario.play; Scenario.home]; [Scenario.paid]] "out"
            Scenario.loaded
            (process_log_data (H:=UTC.engine)
               [[Scenario.play; Scenario.home]; [Scenario.paid]] "out"
               Scenario.loaded).1
            (sng_art_mapping [[Scenario.song]]) _ _ _) _).
  - vm_compute. reflexivity.
  - vm_compute. reflexivity.
  - split; [vm_compute; discriminate|].
    repeat constructor; vm_compute; discriminate.
  - repeat constructor; vm_compute; lia.
Defined.

(** C9. The deduplication step is idempotent: on any data frame, and so
    on the Song, Artist, User and Time tables, a second [dropDuplicates]
    returns its input, the same rows in the same order. *)
Theorem deduplication_idempotent `{Engine} (song_data : DataFrame Catalog.t)
    (log_data : DataFrame Log.t) (events : DataFrame Event.t) :
  dropDuplicates (songs_table song_data) = songs_table song_data
  ∧ dropDuplicates (artists_table song_data) = artists_table song_data
  ∧ dropDuplicates (users_table log_data) = users_table log_data
  ∧ dropDuplicates (dropDuplicates (select tick_columns events))
    = dropDuplicates (select tick_columns events)
  ∧ dropDuplicates (time_table (with_start_time log_data))
    = time_table (with_start_time log_data).
Proof.
  split_and!; try apply dropDuplicates_idempotent.
  assert (time_table (with_start_time log_data)
          = [collect (time_table (with_start_time log_data))]) as Hone.
  { unfold time_table, withColumn, dropDuplicates, collect. cbn.
    by rewrite app_nil_r. }
  rewrite Hone at 2. unfold dropDuplicates. f_equal.
  rewrite collect_time_table.
  apply remove_dups_NoDup, NoDup_fmap_2, NoDup_remove_dups.
  by intros t1 t2 [= ->].
Qed.

(** C10. [process_log_data] is not atomic.  When the users and the time
    table can be written (the store takes both and the lambda of the udf
    returns on every "NextSong" record) and then the join fails for want
    of the view, or the store refuses the fact table, the run raises (the
    analysis exception of the missing view, else the refusal of the
    store) with users.parquet and time.parquet replaced by the tables of
    this run and songplays.parquet as it was before the run. *)
Theorem dimensions_written_before_failure `{Engine} (df0 : DataFrame Log.t)
    (output_data : string) (w : World) :
  output_data +:+ "/users.parquet" ∉ read_only w →
  output_data +:+ "/time.parquet" ∉ read_only w →
  lambda_returns (next_song df0) →
  temp_views w !! "sng_art_mapping" = None
  ∨ output_data +:+ "/songplays.parquet" ∈ read_only w →
  (process_log_data df0 output_data w).2
  = Raised (match temp_views w !! "sng_art_mapping" with
            | None => AnalysisException "sng_art_mapping"
            | Some _ => WriteFailed (output_data +:+ "/songplays.parquet")
            end)
  ∧ store (process_log_data df0 output_data w).1
      !! (output_data +:+ "/users.parquet")
    = Some (UsersParquet (collect (users_table (next_song df0))))
  ∧ store (process_log_data df0 output_data w).1
      !! (output_data +:+ "/time.parquet")
    = Some (TimeParquet
              (partitionBy (λ r, (TimeRow.year r, TimeRow.month r))
                           (time_table (with_start_time (next_song df0)))))
  ∧ store (process_log_data df0 output_data w).1
      !! (output_data +:+ "/songplays.parquet")
    = store w !! (output_data +:+ "/songplays.parquet").
Proof.
  intros Hu Ht Hret Hfail.
  assert ((process_log_data df0 output_data w).2
          = Raised (match temp_views w !! "sng_art_mapping" with
                    | None => AnalysisException "sng_art_mapping"
                    | Some _ =>
                        WriteFailed (output_data +:+ "/songplays.parquet")
                    end)) as He.
  { rewrite process_log_data_run. cbn zeta. rewrite !decide_False by done.
    destruct (lambda_returns (next_song df0)); [|done].
    destruct (temp_views w !! "sng_art_mapping") as [songs_art|]; [|done].
    destruct Hfail as [?|Hro]; [done|].
    by rewrite decide_True by done. }
  split_and!.
  - exact He.
  - by apply users_written.
  - by apply time_written.
  - apply songplays_untouched. by rewrite He.
Qed.

Lemma dimensions_written_before_failure_witness :
  (process_log_data (H:=UTC.engine) [[Scenario.play]] "out"
                    Scenario.locked).2
  = Raised (WriteFailed "out/songplays.parquet")
  ∧ store (process_log_data (H:=UTC.engine) [[Scenario.play]] "out"
                            Scenario.locked).1
      !! ("out" +:+ "/songplays.parquet")
    = None.
Proof.
  destruct (dimensions_written_before_failure (H:=UTC.engine)
              [[Scenario.play]] "out" Scenario.locked)
    as (Hraised & _ & _ & Hfact).
  - unfold Scenario.locked. cbn [read_only].
    intros Hin%elem_of_singleton. vm_compute in Hin. discriminate.
  - unfold Scenario.locked. cbn [read_only].
    intros Hin%elem_of_singleton. vm_compute in Hin. discriminate.
  - vm_compute. exact I.
  - right. unfold Scenario.locked. cbn [read_only].
    apply elem_of_singleton. vm_compute. reflexivity.
  - split; [exact Hraised|]. rewrite Hfact. vm_compute. reflexivity.
Defined.

(** * The scenarios of the specification, run on [UTC.engine]

    The tables below are those of an engine whose [start_time] is the
    text of the [datetime] in UTC and whose calendar functions read it;
    on an engine that makes another text of it the same rows carry that
    text, and null where its calendar functions cannot read it. *)

(** One catalog record and one matching event: one row in every table,
    the fact row linking song S1, artist A1 and user 1. *)
Example scenario_match :
  main (H:=UTC.engine) [[Scenario.song]] [[Scenario.play]] "out" Scenario.empty
  = (mkWorld
       {["sng_art_mapping" :=
           [[Mapping.mk (Some "S1") (Some "Test Song") (Some "A1")
                        (Some "Test Artist")]]]}
       (<["out/songplays.parquet" :=
            SongplaysParquet
              [((Some 2000, Some 1),
                [Songplay.mk 0 "2000-01-01 00:00:00" (Some "1") (Some "free")
                             (Some "S1") (Some "A1") (Some 100) (Some "loc")
                             (Some "ua") (Some 2000) (Some 1)])]]>
          (<["out/time.parquet" :=
               TimeParquet
                 [((Some 2000, Some 1),
                   [TimeRow.mk "2000-01-01 00:00:00" (Some 2000) (Some 1)
                               (Some 0) (Some 1) (Some 52) (Some 7)])]]>
             (<["out/users.parquet" :=
                  UsersParquet
                    [User.mk (Some "1") (Some "A") (Some "B") (Some "F")
                             (Some "free")]]>
                (<["out/artists.parquet" :=
                     ArtistsParquet
                       [Artist.mk (Some "A1") (Some "Test Artist")
                                  (Some "NYC") (Some Scenario.latitude)
                                  (Some Scenario.longitude)]]>
                   {["out/songs.parquet" :=
                       SongsParquet
                         [((Some 2000, Some "A1"),
                           [Song.mk (Some "S1") (Some "Test Song")
                                    (Some "A1") (Some 2000)
                                    (Some Scenario.duration)])]]}))))
       ∅,
     Done ()).
Proof. vm_compute. reflexivity. Qed.

(** No match: the fact table is written without a row, the users and the
    time table are populated all the same. *)
Example scenario_no_match :
  (main (H:=UTC.engine) [[Scenario.other]] [[Scenario.play]] "out"
        Scenario.empty).2 = Done ()
  ∧ store (main (H:=UTC.engine) [[Scenario.other]] [[Scenario.play]] "out"
                Scenario.empty).1 !! "out/songplays.parquet"
    = Some (SongplaysParquet [])
  ∧ store (main (H:=UTC.engine) [[Scenario.other]] [[Scenario.play]] "out"
                Scenario.empty).1 !! "out/users.parquet"
    = Some (UsersParquet
              [User.mk (Some "1") (Some "A") (Some "B") (Some "F")
                       (Some "free")])
  ∧ store (main (H:=UTC.engine) [[Scenario.other]] [[Scenario.play]] "out"
                Scenario.empty).1 !! "out/time.parquet"
    = Some (TimeParquet
              [((Some 2000, Some 1),
                [TimeRow.mk "2000-01-01 00:00:00" (Some 2000) (Some 1)
                            (Some 0) (Some 1) (Some 52) (Some 7)])]).
Proof. vm_compute. repeat split. Qed.

(** Wrong event type: a log of one Home event leaves every table of the
    log empty. *)
Example scenario_wrong_page :
  (main (H:=UTC.engine) [[Scenario.song]] [[Scenario.home]] "out"
        Scenario.empty).2 = Done ()
  ∧ store (main (H:=UTC.engine) [[Scenario.song]] [[Scenario.home]] "out"
                Scenario.empty).1 !! "out/songplays.parquet"
    = Some (SongplaysParquet [])
  ∧ store (main (H:=UTC.engine) [[Scenario.song]] [[Scenario.home]] "out"
                Scenario.empty).1 !! "out/users.parquet"
    = Some (UsersParquet [])
  ∧ store (main (H:=UTC.engine) [[Scenario.song]] [[Scenario.home]] "out"
                Scenario.empty).1 !! "out/time.parquet"
    = Some (TimeParquet []).
Proof. vm_compute. repeat split. Qed.

(** * Further properties of the job *)

(** ** [main], step by step *)

(** The five writes and the registration of the view, in the order of
    [main]: the job stops at the first write the store refuses, or at
    the write of the time table when the lambda of the udf raises on a
    record, and the lookup of the view between the fourth and the fifth
    write never fails, the view having been registered after the
    first. *)
Lemma main_run `{Engine} (song_data : DataFrame Catalog.t)
    (log_data : DataFrame Log.t) (output_data : string) (w : World) :
  main song_data log_data output_data w =
  let put path data w :=
    mkWorld (temp_views w) (<[path := data]> (store w)) (read_only w) in
  if decide (output_data +:+ "/songs.parquet" ∈ read_only w)
  then (w, Raised (WriteFailed (output_data +:+ "/songs.parquet")))
  else
    let w1 :=
      mkWorld (<["sng_art_mapping" := sng_art_mapping song_data]>
                 (temp_views w))
              (<[output_data +:+ "/songs.parquet" :=
                   SongsParquet
                     (partitionBy (λ r, (Song.year r, Song.artist_id r))
                                  (songs_table song_data))]> (store w))
              (read_only w) in
    if decide (output_data +:+ "/artists.parquet" ∈ read_only w)
    then (w1, Raised (WriteFailed (output_data +:+ "/artists.parquet")))
    else
      let w2 := put (output_data +:+ "/artists.parquet")
                    (ArtistsParquet (collect (artists_table song_data))) w1 in
      if decide (output_data +:+ "/users.parquet" ∈ read_only w)
      then (w2, Raised (WriteFailed (output_data +:+ "/users.parquet")))
      else
        let w3 := put (output_data +:+ "/users.parquet")
                      (users_parquet log_data) w2 in
        if decide (output_data +:+ "/time.parquet" ∈ read_only w)
        then (w3, Raised (WriteFailed (output_data +:+ "/time.parquet")))
        else if lambda_returns (next_song log_data) then
          let w4 := put (output_data +:+ "/time.parquet")
                        (time_parquet log_data) w3 in
          if decide (output_data +:+ "/songplays.parquet" ∈ read_only w)
          then (w4, Raised (WriteFailed
                              (output_data +:+ "/songplays.parquet")))
          else (put (output_data +:+ "/songplays.parquet")
                    (songplays_parquet log_data (sng_art_mapping song_data))
                    w4, Done ())
        else
          (mkWorld (temp_views w3)
                   (delete (output_data +:+ "/time.parquet") (store w3))
                   (read_only w),
           Raised PythonException).
Proof.
  unfold main, mbind at 1, job_bind at 1.
  rewrite process_song_data_run. cbn zeta.
  destruct (decide (output_data +:+ "/songs.parquet" ∈ read_only w));
    [done|].
  destruct (decide (output_data +:+ "/artists.parquet" ∈ read_only w));
    [done|].
  rewrite process_log_data_run. cbn zeta. cbn [temp_views store read_only].
  rewrite lookup_insert_eq.
  destruct (decide (output_data +:+ "/users.parquet" ∈ read_only w));
    [done|].
  destruct (decide (output_data +:+ "/time.parquet" ∈ read_only w));
    [done|].
  destruct (lambda_returns (next_song log_data)); [|done].
  by destruct (decide (output_data +:+ "/songplays.parquet" ∈ read_only w)).
Qed.

(** [main] completes only when the store accepts all five tables and
    the lambda of the udf returns on every "NextSong" record. *)
Lemma main_done_iff `{Engine}
    (song_data : DataFrame Catalog.t) (log_data : DataFrame Log.t)
    (output_data : string) (w : World) :
  (main song_data log_data output_data w).2 = Done ()
  ↔ (output_data +:+ "/songs.parquet" ∉ read_only w)
    ∧ (output_data +:+ "/artists.parquet" ∉ read_only w)
    ∧ (output_data +:+ "/users.parquet" ∉ read_only w)
    ∧ (output_data +:+ "/time.parquet" ∉ read_only w)
    ∧ (output_data +:+ "/songplays.parquet" ∉ read_only w)
    ∧ lambda_returns (next_song log_data).
Proof.
  rewrite main_run. cbn zeta.
  destruct (decide (output_data +:+ "/songs.parquet" ∈ read_only w));
    [split; [done|tauto]|].
  destruct (decide (output_data +:+ "/artists.parquet" ∈ read_only w));
    [split; [done|tauto]|].
  destruct (decide (output_data +:+ "/users.parquet" ∈ read_only w));
    [split; [done|tauto]|].
  destruct (decide (output_data +:+ "/time.parquet" ∈ read_only w));
    [split; [done|tauto]|].
  destruct (lambda_returns (next_song log_data));
    [|split; [done|cbn; tauto]].
  destruct (decide (output_data +:+ "/songplays.parquet" ∈ read_only w));
    [split; [done|tauto]|].
  done.
Qed.

(** ** The catalog run *)

(** X1. [process_song_data] stops at the first write the store refuses
    and rolls nothing back.  Refused the songs table, it leaves the world
    as it was, with no view registered.  Refused the artists table, it
    raises with the songs table already replaced and the view
    sng_art_mapping already registered, and leaves artists.parquet as it
    was. *)
Theorem catalog_run_stops_at_refused_write (df : DataFrame Catalog.t)
    (output_data : string) (w : World) :
  (output_data +:+ "/songs.parquet" ∈ read_only w →
   process_song_data df output_data w
   = (w, Raised (WriteFailed (output_data +:+ "/songs.parquet"))))
  ∧ (output_data +:+ "/songs.parquet" ∉ read_only w →
     output_data +:+ "/artists.parquet" ∈ read_only w →
     (process_song_data df output_data w).2
     = Raised (WriteFailed (output_data +:+ "/artists.parquet"))
     ∧ temp_views (process_song_data df output_data w).1
         !! "sng_art_mapping" = Some (sng_art_mapping df)
     ∧ store (process_song_data df output_data w).1
         !! (output_data +:+ "/songs.parquet")
       = Some (SongsParquet
                 (partitionBy (λ r, (Song.year r, Song.artist_id r))
                              (songs_table df)))
     ∧ store (process_song_data df output_data w).1
         !! (output_data +:+ "/artists.parquet")
       = store w !! (output_data +:+ "/artists.parquet")).
Proof.
  split.
  - intros Hs. rewrite process_song_data_run. by rewrite decide_True.
  - intros Hs Ha. rewrite process_song_data_run. cbn zeta.
    rewrite decide_False, decide_True by done. cbn [fst snd temp_views store].
    split_and!; [done|apply lookup_insert_eq|apply lookup_insert_eq|].
    by rewrite lookup_insert_ne by auto.
Qed.

Lemma catalog_run_stops_at_refused_write_witness :
  process_song_data [[Scenario.song]] "out"
    (mkWorld ∅ ∅ {["out/songs.parquet"]})
  = (mkWorld ∅ ∅ {["out/songs.parquet"]},
     Raised (WriteFailed ("out" +:+ "/songs.parquet")))
  ∧ temp_views (process_song_data [[Scenario.song]] "out"
                  (mkWorld ∅ ∅ {["out/artists.parquet"]})).1
      !! "sng_art_mapping" = Some (sng_art_mapping [[Scenario.song]]).
Proof.
  split.
  - apply (proj1 (catalog_run_stops_at_refused_write [[Scenario.song]] "out"
                    (mkWorld ∅ ∅ {["out/songs.parquet"]}))).
    cbn [read_only]. apply elem_of_singleton. vm_compute. reflexivity.
  - refine (proj1 (proj2 (proj2 (catalog_run_stops_at_refused_write
                                   [[Scenario.song]] "out"
                                   (mkWorld ∅ ∅ {["out/artists.parquet"]}))
                            _ _))).
    + cbn [read_only]. intros Hin%elem_of_singleton.
      vm_compute in Hin. discriminate.
    + cbn [read_only]. apply elem_of_singleton. vm_compute. reflexivity.
Defined.



(** ** The whole job *)

(** X3. On a catalog and a log that hold a record each (frames with
    the columns the job selects), [main] completes exactly when the
    store accepts all five tables and the lambda of the udf returns on
    every "NextSong" record of the log.  It never raises the analysis
    exception of a missing view: whatever it raises is the refusal of a
    write, at a path the store refuses, or the exception of the lambda,
    on a log where it does not return. *)
Theorem main_completes_iff_writable `{Engine} (song_data : DataFrame Catalog.t)
    (log_data : DataFrame Log.t) (output_data : string) (w : World) :
  collect song_data ≠ [] →
  collect log_data ≠ [] →
  ((main song_data log_data output_data w).2 = Done ()
   ↔ (output_data +:+ "/songs.parquet" ∉ read_only w)
     ∧ (output_data +:+ "/artists.parquet" ∉ read_only w)
     ∧ (output_data +:+ "/users.parquet" ∉ read_only w)
     ∧ (output_data +:+ "/time.parquet" ∉ read_only w)
     ∧ (output_data +:+ "/songplays.parquet" ∉ read_only w)
     ∧ lambda_returns (next_song log_data))
  ∧ (∀ e, (main song_data log_data output_data w).2 = Raised e →
          (∃ path, e = WriteFailed path ∧ path ∈ read_only w)
          ∨ (e = PythonException ∧ ¬ lambda_returns (next_song log_data))).
Proof.
  intros _ _. split; [apply main_done_iff|].
  rewrite main_run. cbn zeta.
  destruct (decide (output_data +:+ "/songs.parquet" ∈ read_only w))
    as [Hin|Hs]; [intros e [= <-]; eauto|].
  destruct (decide (output_data +:+ "/artists.parquet" ∈ read_only w))
    as [Hin|Ha]; [intros e [= <-]; eauto|].
  destruct (decide (output_data +:+ "/users.parquet" ∈ read_only w))
    as [Hin|Hu]; [intros e [= <-]; eauto|].
  destruct (decide (output_data +:+ "/time.parquet" ∈ read_only w))
    as [Hin|Ht]; [intros e [= <-]; eauto|].
  destruct (lambda_returns (next_song log_data));
    [|intros e [= <-]; right; split; [done|cbn; tauto]].
  destruct (decide (output_data +:+ "/songplays.parquet" ∈ read_only w))
    as [Hin|Hf]; [intros e [= <-]; eauto|].
  intros e. discriminate.
Qed.

Lemma main_completes_iff_writable_witness :
  (main (H:=UTC.engine) [[Scenario.song]] [[Scenario.play]] "out"
        Scenario.empty).2 = Done ()
  ∧ ((∃ path,
        WriteFailed "out/songplays.parquet" = WriteFailed path
        ∧ path ∈ read_only Scenario.locked)
     ∨ (WriteFailed "out/songplays.parquet" = PythonException
        ∧ ¬ lambda_returns (H:=UTC.engine) (next_song [[Scenario.play]])))
  ∧ ((∃ path, PythonException = WriteFailed path
              ∧ path ∈ read_only Scenario.empty)
     ∨ (PythonException = PythonException
        ∧ ¬ lambda_returns (H:=UTC.engine)
              (next_song [[Scenario.play; Scenario.far]]))).
Proof.
  split_and!.
  - apply (proj1 (main_completes_iff_writable (H:=UTC.engine)
                    [[Scenario.song]] [[Scenario.play]] "out"
                    Scenario.empty ltac:(discriminate) ltac:(discriminate))).
    split_and!; try apply not_elem_of_empty.
    vm_compute. exact I.
  - apply (proj2 (main_completes_iff_writable (H:=UTC.engine)
                    [[Scenario.song]] [[Scenario.play]] "out"
                    Scenario.locked ltac:(discriminate) ltac:(discriminate))).
    vm_compute. reflexivity.
  - apply (proj2 (main_completes_iff_writable (H:=UTC.engine)
                    [[Scenario.song]] [[Scenario.play; Scenario.far]] "out"
                    Scenario.empty ltac:(discriminate) ltac:(discriminate))).
    vm_compute. reflexivity.
Defined.

Lemma insert_five_again {V} (k1 k2 k3 k4 k5 : string) (v1 v2 v3 v4 v5 : V)
    (m : gmap string V) :
  let m' := <[k5 := v5]> (<[k4 := v4]> (<[k3 := v3]> (<[k2 := v2]>
              (<[k1 := v1]> m)))) in
  k1 ≠ k2 → k1 ≠ k3 → k1 ≠ k4 → k1 ≠ k5 → k2 ≠ k3 → k2 ≠ k4 → k2 ≠ k5 →
  k3 ≠ k4 → k3 ≠ k5 → k4 ≠ k5 →
  <[k5 := v5]> (<[k4 := v4]> (<[k3 := v3]> (<[k2 := v2]> (<[k1 := v1]> m'))))
  = m'.
Proof.
  intros m' ? ? ? ? ? ? ? ? ? ?. subst m'. apply map_eq. intros k.
  destruct (decide (k = k5)) as [->|?];
    [by rewrite !lookup_insert_eq|rewrite !(lookup_insert_ne _ k5) by done].
  destruct (decide (k = k4)) as [->|?];
    [by rewrite !lookup_insert_eq|rewrite !(lookup_insert_ne _ k4) by done].
  destruct (decide (k = k3)) as [->|?];
    [by rewrite !lookup_insert_eq|rewrite !(lookup_insert_ne _ k3) by done].
  destruct (decide (k = k2)) as [->|?];
    [by rewrite !lookup_insert_eq|rewrite !(lookup_insert_ne _ k2) by done].
  destruct (decide (k = k1)) as [->|?];
    [by rewrite !lookup_insert_eq|by rewrite !lookup_insert_ne by done].
Qed.

(** X4. Every write is a full overwrite and the view is replaced, so a
    completed run of [main] is idempotent: run again on the same two data
    frames in the world it left, [main] completes and leaves that world
    unchanged. *)
Theorem main_rerun_changes_nothing `{Engine} (song_data : DataFrame Catalog.t)
    (log_data : DataFrame Log.t) (output_data : string) (w : World) :
  (main song_data log_data output_data w).2 = Done () →
  main song_data log_data output_data
       (main song_data log_data output_data w).1
  = ((main song_data log_data output_data w).1, Done ()).
Proof.
  intros Hdone.
  apply (proj1 (main_done_iff _ _ _ _))
    in Hdone as (Hs & Ha & Hu & Ht & Hf & Hret%Is_true_true).
  rewrite (main_run _ _ _ w). cbn zeta.
  rewrite Hret, !decide_False by done.
  cbn [fst]. rewrite main_run. cbn zeta. cbn [temp_views store read_only].
  rewrite Hret, !decide_False by done.
  f_equal. f_equal.
  - apply insert_insert_eq.
  - apply insert_five_again; auto.
Qed.

Lemma main_rerun_changes_nothing_witness :
  main (H:=UTC.engine) [[Scenario.song; Scenario.cover]]
       [[Scenario.play; Scenario.home]; [Scenario.paid]] "out"
       (main (H:=UTC.engine) [[Scenario.song; Scenario.cover]]
             [[Scenario.play; Scenario.home]; [Scenario.paid]] "out"
             Scenario.loaded).1
  = ((main (H:=UTC.engine) [[Scenario.song; Scenario.cover]]
           [[Scenario.play; Scenario.home]; [Scenario.paid]] "out"
           Scenario.loaded).1, Done ()).
Proof.
  apply (main_rerun_changes_nothing (H:=UTC.engine)).
  vm_compute. reflexivity.
Defined.

(** X5. [process_log_data] touches the users, time and songplays tables
    and nothing else: completed or not, it leaves the views of the
    session, the paths the store refuses and every other data set of the
    store as they were. *)
Theorem log_run_frame `{Engine} (df0 : DataFrame Log.t) (output_data : string)
    (w : World) :
  temp_views (process_log_data df0 output_data w).1 = temp_views w
  ∧ read_only (process_log_data df0 output_data w).1 = read_only w
  ∧ ∀ path,
      path ≠ output_data +:+ "/users.parquet" →
      path ≠ output_data +:+ "/time.parquet" →
      path ≠ output_data +:+ "/songplays.parquet" →
      store (process_log_data df0 output_data w).1 !! path = store w !! path.
Proof.
  rewrite process_log_data_run. cbn zeta.
  destruct (decide (output_data +:+ "/users.parquet" ∈ read_only w));
    [done|].
  destruct (decide (output_data +:+ "/time.parquet" ∈ read_only w));
    [by split_and!; [..|intros; cbn; rewrite lookup_insert_ne]|].
  destruct (lambda_returns (next_song df0));
    [|by split_and!;
        [..|intros; cbn; rewrite lookup_delete_ne, lookup_insert_ne]].
  destruct (temp_views w !! "sng_art_mapping");
    [|by split_and!; [..|intros; cbn; rewrite !lookup_insert_ne]].
  destruct (decide (output_data +:+ "/songplays.parquet" ∈ read_only w));
    by split_and!; [..|intros; cbn; rewrite !lookup_insert_ne].
Qed.

Lemma log_run_frame_witness :
  store (process_log_data (H:=UTC.engine) [[Scenario.play]] "out"
                          Scenario.loaded).1 !! "out/songs.parquet"
  = store Scenario.loaded !! "out/songs.parquet".
Proof.
  apply (proj2 (proj2 (log_run_frame (H:=UTC.engine) [[Scenario.play]] "out"
                         Scenario.loaded)));
    vm_compute; discriminate.
Defined.

(** X6. [process_song_data] touches the songs and artists tables and the
    view sng_art_mapping and nothing else: completed or not, it leaves
    every other view, the paths the store refuses and every other data
    set of the store as they were. *)
Theorem catalog_run_frame (df : DataFrame Catalog.t) (output_data : string)
    (w : World) :
  read_only (process_song_data df output_data w).1 = read_only w
  ∧ (∀ name, name ≠ "sng_art_mapping" →
       temp_views (process_song_data df output_data w).1 !! name
       = temp_views w !! name)
  ∧ ∀ path,
      path ≠ output_data +:+ "/songs.parquet" →
      path ≠ output_data +:+ "/artists.parquet" →
      store (process_song_data df output_data w).1 !! path = store w !! path.
Proof.
  rewrite process_song_data_run. cbn zeta.
  destruct (decide (output_data +:+ "/songs.parquet" ∈ read_only w));
    [done|].
  destruct (decide (output_data +:+ "/artists.parquet" ∈ read_only w));
    by split_and!; intros; cbn; rewrite ?lookup_insert_ne.
Qed.

Lemma catalog_run_frame_witness :
  store (process_song_data [[Scenario.cover]] "out"
           (main (H:=UTC.engine) [[Scenario.song]] [[Scenario.play]] "out"
                 Scenario.empty).1).1 !! "out/songplays.parquet"
  = store (main (H:=UTC.engine) [[Scenario.song]] [[Scenario.play]] "out"
                Scenario.empty).1 !! "out/songplays.parquet".
Proof.
  apply (proj2 (proj2 (catalog_run_frame [[Scenario.cover]] "out"
                         (main (H:=UTC.engine) [[Scenario.song]]
                               [[Scenario.play]] "out"
                               Scenario.empty).1)));
    vm_compute; discriminate.
Defined.

(** ** How many fact rows *)

Lemma fst_withColumn_id {A} (df : DataFrame A) :
  fst <$> collect (withColumn_id pair df) = collect df.
Proof.
  unfold collect, withColumn_id.
  assert (∀ (p : nat) (part : list A),
            fst <$> imap (λ i r, (r, monotonically_increasing_id p i)) part
            = part) as Hpart.
  { intros p part. rewrite fmap_imap.
    rewrite (imap_ext _ (λ _ r, r)) by done.
    rewrite (imap_const id). apply list_fmap_id. }
  assert (∀ (g : nat → nat) (l : DataFrame A),
            fst <$> mjoin (imap (λ p part,
                                   imap (λ i r,
                                           (r, monotonically_increasing_id
                                                 (g p) i)) part) l)
            = mjoin l) as Hall.
  { intros g l. revert g. induction l as [|part l IH]; intros g; [done|].
    rewrite imap_cons. csimpl. rewrite fmap_app, Hpart. f_equal.
    apply (IH (g ∘ S)). }
  apply (Hall id).
Qed.

Lemma length_bind {A B} (g : A → list B) (l : list A) :
  length (l ≫= g) = sum_list ((λ x, length (g x)) <$> l).
Proof.
  induction l as [|x l IH]; [done|].
  rewrite bind_cons, length_app, IH. done.
Qed.

(** X7. The number of fact rows a completed run writes is the number of
    pairs of a NextSong event and a lookup row that the join condition
    accepts: each event contributes as many rows as lookup rows match it.
    The fact table is empty exactly when no event matches any lookup
    row. *)
Theorem fact_rows_count `{Engine} (df0 : DataFrame Log.t)
    (output_data : string) (w w' : World) (songs_art : DataFrame Mapping.t) :
  temp_views w !! "sng_art_mapping" = Some songs_art →
  process_log_data df0 output_data w = (w', Done ()) →
  ∃ parts,
    store w' !! (output_data +:+ "/songplays.parquet")
    = Some (SongplaysParquet parts)
    ∧ length (rows_of parts)
      = sum_list ((λ r, length (filter (λ m, on_artist_and_song r m)
                                       (collect songs_art)))
                    <$> collect (next_song df0))
    ∧ (rows_of parts = []
       ↔ ∀ r m, r ∈ collect (next_song df0) → m ∈ collect songs_art →
                ¬ on_artist_and_song r m).
Proof.
  intros Hview Hrun.
  destruct (fact_table_written df0 output_data w w' songs_art Hview Hrun)
    as (parts & Hstore & Hrows).
  exists parts. split; [done|].
  assert (length (rows_of parts)
          = sum_list ((λ r, length (filter (λ m, on_artist_and_song r m)
                                           (collect songs_art)))
                        <$> collect (next_song df0))) as Hlen.
  { rewrite (Permutation_length Hrows), length_bind.
    rewrite <- (fst_withColumn_id (next_song df0)), <- list_fmap_compose.
    f_equal. apply list_fmap_ext. intros _ [r id] _. cbn.
    unfold joined_with. by rewrite length_fmap. }
  split; [done|].
  rewrite <- length_zero_iff_nil, Hlen. clear Hlen Hrows Hstore.
  induction (collect (next_song df0)) as [|r l IH]; csimpl.
  - split; [|done]. intros _ r m Hr. by apply elem_of_nil in Hr.
  - rewrite Nat.eq_add_0, IH, length_zero_iff_nil. split.
    + intros [Hnone Hrest] r' m [->|Hr']%elem_of_cons Hm; [|by eauto].
      intros Hon. eapply (filter_nil_not_elem_of _ _ m); done.
    + intros Hall. split.
      * apply filter_none. intros m Hm. apply Hall; [left|done].
      * intros r' m Hr'. apply Hall. by right.
Qed.

Lemma fact_rows_count_witness :
  ∃ parts,
    store (main (H:=UTC.engine) [[Scenario.song; Scenario.cover]]
                [[Scenario.play; Scenario.home]; [Scenario.paid]] "out"
                Scenario.empty).1
      !! ("out" +:+ "/songplays.parquet") = Some (SongplaysParquet parts)
    ∧ length (rows_of parts) = 4%nat.
Proof.
  destruct (fact_rows_count (H:=UTC.engine)
              [[Scenario.play; Scenario.home]; [Scenario.paid]] "out"
              (process_song_data [[Scenario.song; Scenario.cover]] "out"
                                 Scenario.empty).1
              (main (H:=UTC.engine) [[Scenario.song; Scenario.cover]]
                    [[Scenario.play; Scenario.home]; [Scenario.paid]] "out"
                    Scenario.empty).1
              (sng_art_mapping [[Scenario.song; Scenario.cover]]))
    as (parts & Hstore & Hlen & _).
  - vm_compute. reflexivity.
  - vm_compute. reflexivity.
  - exists parts. split; [exact Hstore|].
    rewrite Hlen. vm_compute. reflexivity.
Defined.

(** ** The layout of the input *)

Lemma remove_dups_Permutation {A} `{EqDecision A} (l k : list A) :
  l ≡ₚ k → remove_dups l ≡ₚ remove_dups k.
Proof.
  intros Hlk. apply NoDup_Permutation; try apply NoDup_remove_dups.
  intros x. by rewrite !elem_of_remove_dups, Hlk.
Qed.

Lemma lambda_returns_Permutation `{Engine} (df df' : DataFrame Log.t) :
  collect df ≡ₚ collect df' → lambda_returns df = lambda_returns df'.
Proof.
  intros Hperm. unfold lambda_returns. apply eq_true_iff_eq.
  rewrite !forallb_forall.
  split; intros Hall r Hr; apply Hall;
    (eapply Permutation_in; [|exact Hr]); [by symmetry|done].
Qed.

(** X8. The users and the time table do not depend on how the log is
    laid out.  Of two logs that hold the same records, split into
    partitions and ordered in any two ways, the lambda of the udf returns
    on every "NextSong" record of the one exactly when it does on the
    other, the two runs have the same outcome, the users tables written
    hold the same rows and, where the lambda returns, so do the time
    tables, up to the order of the rows. *)
Theorem log_tables_ignore_layout `{Engine} (df0 df0' : DataFrame Log.t)
    (output_data : string) (w : World) :
  collect df0 ≡ₚ collect df0' →
  output_data +:+ "/users.parquet" ∉ read_only w →
  output_data +:+ "/time.parquet" ∉ read_only w →
  lambda_returns (next_song df0) = lambda_returns (next_song df0')
  ∧ (process_log_data df0 output_data w).2
    = (process_log_data df0' output_data w).2
  ∧ (∃ rows rows',
       store (process_log_data df0 output_data w).1
         !! (output_data +:+ "/users.parquet") = Some (UsersParquet rows)
       ∧ store (process_log_data df0' output_data w).1
           !! (output_data +:+ "/users.parquet") = Some (UsersParquet rows')
       ∧ rows ≡ₚ rows')
  ∧ (lambda_returns (next_song df0) →
     ∃ parts parts',
       store (process_log_data df0 output_data w).1
         !! (output_data +:+ "/time.parquet") = Some (TimeParquet parts)
       ∧ store (process_log_data df0' output_data w).1
           !! (output_data +:+ "/time.parquet") = Some (TimeParquet parts')
       ∧ rows_of parts ≡ₚ rows_of parts').
Proof.
  intros Hperm Hu Ht.
  assert (collect (next_song df0) ≡ₚ collect (next_song df0')) as Hnext.
  { unfold next_song. by rewrite !collect_where, Hperm. }
  pose proof (lambda_returns_Permutation _ _ Hnext) as Hlam.
  split_and!.
  - done.
  - rewrite !process_log_data_run. cbn zeta. rewrite <- Hlam.
    rewrite !decide_False by done.
    destruct (lambda_returns (next_song df0)); [|done].
    destruct (temp_views w !! "sng_art_mapping"); [|done].
    by destruct (decide (_ ∈ _)).
  - do 2 eexists.
    split; [by apply users_written|]. split; [by apply users_written|].
    unfold users_table.
    rewrite !collect_dropDuplicates, !collect_select.
    by apply remove_dups_Permutation, fmap_Permutation.
  - intros Hret. do 2 eexists.
    split; [by apply time_written|].
    split; [apply time_written; [done..|by rewrite <- Hlam]|].
    rewrite !rows_of_partitionBy, !collect_time_table.
    by apply fmap_Permutation, remove_dups_Permutation, fmap_Permutation.
Qed.

Lemma log_tables_ignore_layout_witness :
  (∃ rows rows',
     store (process_log_data (H:=UTC.engine)
              [[Scenario.play; Scenario.home]; [Scenario.paid]] "out"
              Scenario.empty).1
       !! ("out" +:+ "/users.parquet") = Some (UsersParquet rows)
     ∧ store (process_log_data (H:=UTC.engine)
                [[Scenario.paid; Scenario.play; Scenario.home]] "out"
                Scenario.empty).1
         !! ("out" +:+ "/users.parquet") = Some (UsersParquet rows')
     ∧ rows ≡ₚ rows')
  ∧ ∃ parts parts',
      store (process_log_data (H:=UTC.engine)
               [[Scenario.play; Scenario.home]; [Scenario.paid]] "out"
               Scenario.empty).1
        !! ("out" +:+ "/time.parquet") = Some (TimeParquet parts)
      ∧ store (process_log_data (H:=UTC.engine)
                 [[Scenario.paid; Scenario.play; Scenario.home]] "out"
                 Scenario.empty).1
          !! ("out" +:+ "/time.parquet") = Some (TimeParquet parts')
      ∧ rows_of parts ≡ₚ rows_of parts'.
Proof.
  destruct (log_tables_ignore_layout (H:=UTC.engine)
              [[Scenario.play; Scenario.home]; [Scenario.paid]]
              [[Scenario.paid; Scenario.play; Scenario.home]] "out"
              Scenario.empty)
    as (_ & _ & Husers & Htime).
  - cbn. apply Permutation_sym, Permutation_cons_append.
  - apply not_elem_of_empty.
  - apply not_elem_of_empty.
  - split; [exact Husers|]. apply Htime. vm_compute. exact I.
Defined.

(** X9. Nor do the songs table, the artists table and the lookup view
    depend on the layout of the catalog: two catalogs that hold the same
    records in any two layouts give the same rows in each of the three,
    up to the order of the rows. *)
Theorem catalog_tables_ignore_layout (df df' : DataFrame Catalog.t) :
  collect df ≡ₚ collect df' →
  collect (songs_table df) ≡ₚ collect (songs_table df')
  ∧ collect (artists_table df) ≡ₚ collect (artists_table df')
  ∧ collect (sng_art_mapping df) ≡ₚ collect (sng_art_mapping df')
  ∧ rows_of (partitionBy (λ r, (Song.year r, Song.artist_id r))
                         (songs_table df))
    ≡ₚ rows_of (partitionBy (λ r, (Song.year r, Song.artist_id r))
                            (songs_table df')).
Proof.
  intros Hperm.
  unfold songs_table, artists_table, sng_art_mapping.
  rewrite !rows_of_partitionBy, !collect_dropDuplicates, !collect_select.
  split_and!; by apply remove_dups_Permutation, fmap_Permutation.
Qed.

Lemma catalog_tables_ignore_layout_witness :
  collect (sng_art_mapping [[Scenario.song]; [Scenario.cover; Scenario.song]])
  ≡ₚ collect (sng_art_mapping [[Scenario.cover; Scenario.song; Scenario.song]]).
Proof.
  refine (proj1 (proj2 (proj2 (catalog_tables_ignore_layout
            [[Scenario.song]; [Scenario.cover; Scenario.song]]
            [[Scenario.cover; Scenario.song; Scenario.song]] _)))).
  cbn. apply Permutation_swap.
Defined.

(** ** The values of the identifier *)

Lemma monotonically_increasing_id_value (p i : nat) :
  Z.of_nat p < 2 ^ 30 → Z.of_nat i < 2 ^ 33 →
  monotonically_increasing_id p i = Z.of_nat p * 2 ^ 33 + Z.of_nat i.
Proof.
  unfold monotonically_increasing_id, wrap64.
  rewrite Z.shiftl_mul_pow2 by lia.
  change (2 ^ 30) with 1073741824. change (2 ^ 33) with 8589934592.
  change (2 ^ 63) with 9223372036854775808.
  change (2 ^ 64) with 18446744073709551616.
  intros Hp Hi. rewrite Z.mod_small; lia.
Qed.

Lemma StronglySorted_fmap_seq (g : nat → Z) (j n : nat) :
  (∀ a b : nat, (j ≤ a < b)%nat → (b < j + n)%nat → g a < g b) →
  StronglySorted Z.lt (g <$> seq j n).
Proof.
  revert j. induction n as [|n IH]; intros j Hg; [constructor|].
  cbn. constructor.
  - apply IH. intros a b ? ?. apply Hg; lia.
  - apply Forall_fmap, Forall_seq. intros b ?. cbn. apply Hg; lia.
Qed.

Lemma StronglySorted_ids_from {A} (k : nat) (df : DataFrame A) :
  Z.of_nat (k + length df) ≤ 2 ^ 30 →
  Forall (λ part : list A, Z.of_nat (length part) ≤ 2 ^ 33) df →
  StronglySorted Z.lt (ids_from k df).
Proof.
  revert k. induction df as [|part df IH]; intros k Hk Hdf.
  - constructor.
  - apply Forall_cons in Hdf as [Hpart Hdf]. cbn [length] in Hk.
    assert (ids_from k (part :: df)
            = (monotonically_increasing_id k <$> seq 0 (length part))
              ++ ids_from (S k) df) as ->.
    { unfold ids_from. rewrite imap_cons. csimpl. rewrite fmap_app.
      f_equal.
      - rewrite fmap_imap, <- imap_seq_0. apply imap_ext.
        intros i r _. cbn. by rewrite Nat.add_0_r.
      - do 2 f_equal. apply imap_ext. intros p part' _. cbn.
        by replace (k + S p)%nat with (S k + p)%nat by lia. }
    apply StronglySorted_app. split_and!.
    + intros x y (i & -> & Hi%elem_of_seq)%list_elem_of_fmap
                 (p & part' & i' & Hp & Hi' & ->)%elem_of_ids_from.
      pose proof (lookup_lt_Some _ _ _ Hp) as Hplt.
      rewrite Forall_lookup in Hdf. specialize (Hdf _ _ Hp). cbn in Hdf.
      rewrite !monotonically_increasing_id_value by lia. nia.
    + apply StronglySorted_fmap_seq. intros a b ? ?.
      rewrite !monotonically_increasing_id_value by lia. lia.
    + apply IH; [lia|done].
Qed.

(** X10. Over a filtered log of at most 2^30 partitions of at most 2^33
    rows each, the identifier is what its name says: it increases
    strictly along the rows in the order of the partitions, it is never
    negative, and the row at position [i] of partition [p] gets
    [p * 2^33 + i], so that the identifiers of two partitions are never
    contiguous. *)
Theorem songplay_id_increases (df0 : DataFrame Log.t) :
  Z.of_nat (length (next_song df0)) ≤ 2 ^ 30 →
  Forall (λ part : list Log.t, Z.of_nat (length part) ≤ 2 ^ 33)
         (next_song df0) →
  StronglySorted Z.lt (snd <$> collect (withColumn_id pair (next_song df0)))
  ∧ ∀ r id, (r, id) ∈ collect (withColumn_id pair (next_song df0)) →
            0 ≤ id
            ∧ ∃ p part i,
                next_song df0 !! p = Some part ∧ part !! i = Some r
                ∧ id = Z.of_nat p * 2 ^ 33 + Z.of_nat i.
Proof.
  intros Hlen Hparts. split.
  - apply (StronglySorted_ids_from 0 (next_song df0)); [lia|done].
  - intros r id (p & part & i & r' & Hp & Hi & [= -> ->])%elem_of_withColumn_id.
    pose proof (lookup_lt_Some _ _ _ Hp) as Hplt.
    pose proof (lookup_lt_Some _ _ _ Hi) as Hilt.
    rewrite Forall_lookup in Hparts. specialize (Hparts _ _ Hp). cbn in Hparts.
    rewrite monotonically_increasing_id_value by lia.
    split; [lia|]. eauto 8.
Qed.

Lemma songplay_id_increases_witness :
  StronglySorted Z.lt
    (snd <$> collect (withColumn_id pair
                        (next_song [[Scenario.play; Scenario.home;
                                     Scenario.paid]; []; [Scenario.play]]))).
Proof.
  refine (proj1 (songplay_id_increases
                   [[Scenario.play; Scenario.home; Scenario.paid]; [];
                    [Scenario.play]] _ _)).
  - vm_compute. discriminate.
  - repeat constructor; vm_compute; discriminate.
Defined.

(** ** Where a fact row comes from *)

Lemma elem_of_songplays `{Engine} (df : DataFrame Log.t)
    (songs_art : DataFrame Mapping.t) (row : Songplay.t) :
  row ∈ collect (songplays (with_start_time df) songs_art)
  ↔ ∃ r id m,
      (r, id) ∈ collect (withColumn_id pair df) ∧ m ∈ collect songs_art
      ∧ on_artist_and_song r m ∧ row = songplay_row (event_of r, id, m).
Proof.
  rewrite collect_songplays, list_elem_of_bind. unfold joined_with. split.
  - intros ([r id] & (m & -> & [Hon Hm]%list_elem_of_filter)%list_elem_of_fmap
            & Hr).
    eauto 8.
  - intros (r & id & m & Hr & Hm & Hon & ->). exists (r, id).
    split; [|done]. apply list_elem_of_fmap. exists m.
    by rewrite list_elem_of_filter.
Qed.

Lemma elem_of_numbered {A} (df : DataFrame A) (r : A) (id : Z) :
  (r, id) ∈ collect (withColumn_id pair df) → r ∈ collect df.
Proof.
  intros Hin. rewrite <- (fst_withColumn_id df).
  by apply (list_elem_of_fmap_2 fst) in Hin.
Qed.

Lemma completed_run_writable `{Engine} (df0 : DataFrame Log.t)
    (output_data : string) (w w' : World) :
  process_log_data df0 output_data w = (w', Done ()) →
  (output_data +:+ "/users.parquet" ∉ read_only w)
  ∧ (output_data +:+ "/time.parquet" ∉ read_only w)
  ∧ (output_data +:+ "/songplays.parquet" ∉ read_only w).
Proof.
  intros (? & ? & ? & _)%run_done. done.
Qed.

(** X11. The fact table of a completed run refers to nothing that the
    users and the time table of the same run lack: for every row written
    to songplays.parquet, the time table holds a row with its start_time,
    year and month, and the users table a row with its user_id and
    level. *)
Theorem fact_rows_reference_users_and_time `{Engine} (df0 : DataFrame Log.t)
    (output_data : string) (w w' : World) :
  process_log_data df0 output_data w = (w', Done ()) →
  ∃ users times facts,
    store w' !! (output_data +:+ "/users.parquet") = Some (UsersParquet users)
    ∧ store w' !! (output_data +:+ "/time.parquet") = Some (TimeParquet times)
    ∧ store w' !! (output_data +:+ "/songplays.parquet")
      = Some (SongplaysParquet facts)
    ∧ ∀ row, row ∈ rows_of facts →
        (∃ t, t ∈ rows_of times
              ∧ TimeRow.start_time t = Songplay.start_time row
              ∧ TimeRow.year t = Songplay.year row
              ∧ TimeRow.month t = Songplay.month row)
        ∧ (∃ u, u ∈ users
                ∧ User.user_id u = Songplay.user_id row
                ∧ User.level u = Songplay.level row).
Proof.
  intros Hrun.
  destruct (run_done _ _ _ _ Hrun) as (Hu & Ht & _ & Hret & _).
  destruct (completed_run _ _ _ _ Hrun) as (songs_art & _ & Hfacts).
  pose proof (users_written df0 output_data w Hu) as Husers.
  pose proof (time_written df0 output_data w Hu Ht Hret) as Htimes.
  rewrite Hrun in Husers, Htimes. cbn [fst] in Husers, Htimes.
  do 3 eexists. split_and!; [done..|].
  intros row. rewrite rows_of_partitionBy.
  intros (r & id & m & Hr%elem_of_numbered & _ & _ & ->)%elem_of_songplays.
  split.
  - exists (time_of (start_time_of r)). split; [|done].
    rewrite rows_of_partitionBy, collect_time_table.
    apply list_elem_of_fmap_2, elem_of_remove_dups.
    by apply (list_elem_of_fmap_2 start_time_of).
  - exists (user_columns r). split; [|done].
    apply elem_of_users_table. eauto.
Qed.

Lemma fact_rows_reference_users_and_time_witness :
  ∃ users times facts,
    store (process_log_data (H:=UTC.engine)
             [[Scenario.play; Scenario.home]; [Scenario.paid]] "out"
             Scenario.loaded).1
      !! ("out" +:+ "/users.parquet") = Some (UsersParquet users)
    ∧ store (process_log_data (H:=UTC.engine)
               [[Scenario.play; Scenario.home]; [Scenario.paid]] "out"
               Scenario.loaded).1
        !! ("out" +:+ "/time.parquet") = Some (TimeParquet times)
    ∧ store (process_log_data (H:=UTC.engine)
               [[Scenario.play; Scenario.home]; [Scenario.paid]] "out"
               Scenario.loaded).1
        !! ("out" +:+ "/songplays.parquet") = Some (SongplaysParquet facts)
    ∧ ∀ row, row ∈ rows_of facts →
             ∃ u, u ∈ users ∧ User.user_id u = Songplay.user_id row
                  ∧ User.level u = Songplay.level row.
Proof.
  destruct (fact_rows_reference_users_and_time (H:=UTC.engine)
              [[Scenario.play; Scenario.home]; [Scenario.paid]] "out"
              Scenario.loaded
              (process_log_data (H:=UTC.engine)
                 [[Scenario.play; Scenario.home]; [Scenario.paid]] "out"
                 Scenario.loaded).1)
    as (users & times & facts & Hu & Ht & Hf & Hrows).
  - vm_compute. reflexivity.
  - exists users, times, facts.
    split; [exact Hu|]. split; [exact Ht|]. split; [exact Hf|].
    intros row Hrow. exact (proj2 (Hrows row Hrow)).
Defined.

(** X12. After a completed [main] the fact table refers to nothing that
    the songs and the artists table lack: for every row written to
    songplays.parquet, the songs table holds a row with its song_id and
    artist_id, and the artists table a row with its artist_id. *)
Theorem fact_rows_reference_songs_and_artists `{Engine}
    (song_data : DataFrame Catalog.t) (log_data : DataFrame Log.t)
    (output_data : string) (w : World) :
  (main song_data log_data output_data w).2 = Done () →
  ∃ songs artists facts,
    store (main song_data log_data output_data w).1
      !! (output_data +:+ "/songs.parquet") = Some (SongsParquet songs)
    ∧ store (main song_data log_data output_data w).1
        !! (output_data +:+ "/artists.parquet") = Some (ArtistsParquet artists)
    ∧ store (main song_data log_data output_data w).1
        !! (output_data +:+ "/songplays.parquet")
      = Some (SongplaysParquet facts)
    ∧ ∀ row, row ∈ rows_of facts →
        (∃ s, s ∈ rows_of songs
              ∧ Song.song_id s = Songplay.song_id row
              ∧ Song.artist_id s = Songplay.artist_id row)
        ∧ (∃ a, a ∈ artists ∧ Artist.artist_id a = Songplay.artist_id row).
Proof.
  intros Hdone.
  apply (proj1 (main_done_iff _ _ _ _))
    in Hdone as (Hs & Ha & Hu & Ht & Hf & Hret%Is_true_true).
  rewrite main_run. cbn zeta. rewrite Hret, !decide_False by done.
  cbn [fst store].
  do 3 eexists. split_and!.
  - rewrite !lookup_insert_ne by auto. apply lookup_insert_eq.
  - rewrite !lookup_insert_ne by auto. apply lookup_insert_eq.
  - apply lookup_insert_eq.
  - intros row. rewrite rows_of_partitionBy.
    intros (r & id & m & _ & Hm & _ & ->)%elem_of_songplays.
    unfold sng_art_mapping in Hm.
    rewrite elem_of_dropDuplicates, collect_select in Hm.
    apply list_elem_of_fmap in Hm as (c & -> & Hc). split.
    + exists (song_columns c). split; [|done].
      rewrite rows_of_partitionBy. unfold songs_table.
      rewrite elem_of_dropDuplicates, collect_select.
      by apply list_elem_of_fmap_2.
    + exists (artist_columns c). split; [|done].
      unfold artists_table.
      rewrite elem_of_dropDuplicates, collect_select.
      by apply list_elem_of_fmap_2.
Qed.

Lemma fact_rows_reference_songs_and_artists_witness :
  ∃ songs artists facts,
    store (main (H:=UTC.engine) [[Scenario.song; Scenario.cover]]
                [[Scenario.play; Scenario.home]; [Scenario.paid]] "out"
                Scenario.empty).1
      !! ("out" +:+ "/songs.parquet") = Some (SongsParquet songs)
    ∧ store (main (H:=UTC.engine) [[Scenario.song; Scenario.cover]]
                  [[Scenario.play; Scenario.home]; [Scenario.paid]] "out"
                  Scenario.empty).1
        !! ("out" +:+ "/artists.parquet") = Some (ArtistsParquet artists)
    ∧ store (main (H:=UTC.engine) [[Scenario.song; Scenario.cover]]
                  [[Scenario.play; Scenario.home]; [Scenario.paid]] "out"
                  Scenario.empty).1
        !! ("out" +:+ "/songplays.parquet") = Some (SongplaysParquet facts)
    ∧ ∀ row, row ∈ rows_of facts →
             ∃ a, a ∈ artists ∧ Artist.artist_id a = Songplay.artist_id row.
Proof.
  destruct (fact_rows_reference_songs_and_artists (H:=UTC.engine)
              [[Scenario.song; Scenario.cover]]
              [[Scenario.play; Scenario.home]; [Scenario.paid]] "out"
              Scenario.empty)
    as (songs & artists & facts & Hs & Ha & Hf & Hrows).
  - vm_compute. reflexivity.
  - exists songs, artists, facts.
    split; [exact Hs|]. split; [exact Ha|]. split; [exact Hf|].
    intros row Hrow. exact (proj2 (Hrows row Hrow)).
Defined.

(** ** The directories of the time table *)

Section partition_directories.
Context {A K : Type} `{EqDecision K} (key : A → K).

Lemma partitionBy_keys (df : DataFrame A) :
  (partitionBy key df).*1 = remove_dups (key <$> collect df).
Proof.
  unfold partitionBy. rewrite <- list_fmap_compose.
  etrans; [|apply list_fmap_id]. by apply list_fmap_ext.
Qed.

Lemma partitionBy_nonempty (df : DataFrame A) (k : K) (rows : list A) :
  (k, rows) ∈ partitionBy key df → rows ≠ [].
Proof.
  unfold partitionBy.
  intros (k' & [= -> ->] & (r & -> & Hr)%elem_of_remove_dups%list_elem_of_fmap)
           %list_elem_of_fmap Hnil.
  eapply (filter_nil_not_elem_of _ _ r); done.
Qed.

End partition_directories.

(** X13. The time table, too, is written by year and month: when the
    users and the time table can be written and the lambda of the udf
    returns on every "NextSong" record, every (year, month) pair names
    at most one directory of time.parquet, no directory is empty, and a
    row under (year = Y, month = M) has a start_time whose year is Y and
    whose month is M. *)
Theorem time_partition_keys `{Engine} (df0 : DataFrame Log.t)
    (output_data : string) (w : World) :
  output_data +:+ "/users.parquet" ∉ read_only w →
  output_data +:+ "/time.parquet" ∉ read_only w →
  lambda_returns (next_song df0) →
  ∃ parts,
    store (process_log_data df0 output_data w).1
      !! (output_data +:+ "/time.parquet") = Some (TimeParquet parts)
    ∧ NoDup parts.*1
    ∧ ∀ Y M rows,
        ((Y, M), rows) ∈ parts →
        rows ≠ []
        ∧ ∀ row, row ∈ rows →
                 year (TimeRow.start_time row) = Y
                 ∧ month (TimeRow.start_time row) = M.
Proof.
  intros Hu Ht Hret. eexists. split; [by apply time_written|]. split.
  - rewrite partitionBy_keys. apply NoDup_remove_dups.
  - intros Y M rows Hpart. split; [by eapply partitionBy_nonempty|].
    intros row Hrow.
    destruct (elem_of_partitionBy _ _ _ _ _ Hpart Hrow) as [[= <- <-] Hin].
    rewrite collect_time_table in Hin.
    by apply list_elem_of_fmap in Hin as (t & -> & _).
Qed.

Lemma time_partition_keys_witness :
  ∃ parts,
    store (process_log_data (H:=UTC.engine)
             [[Scenario.play; Scenario.home]; [Scenario.paid]] "out"
             Scenario.empty).1
      !! ("out" +:+ "/time.parquet") = Some (TimeParquet parts)
    ∧ NoDup parts.*1.
Proof.
  destruct (time_partition_keys (H:=UTC.engine)
              [[Scenario.play; Scenario.home]; [Scenario.paid]] "out"
              Scenario.empty)
    as (parts & Hstore & Hnd & _).
  - apply not_elem_of_empty.
  - apply not_elem_of_empty.
  - vm_compute. exact I.
  - exists parts. split; [exact Hstore|exact Hnd].
Defined.

(** ** The setup *)

(** X14. The setup at the head of the module completes on nothing the
    parser can hold.  [config['AWS_ACCESS_KEY_ID']] looks up a section,
    not an option: without a section of that name it raises a [KeyError],
    and with one the assignment to [os.environ] raises a [TypeError], the
    section being no string.  Either way nothing has been assigned. *)
Theorem setup_always_raises (config : ConfigParser)
    (environ : gmap string string) :
  (config !! "AWS_ACCESS_KEY_ID" = None →
   setup config environ = inl (KeyError "AWS_ACCESS_KEY_ID"))
  ∧ (is_Some (config !! "AWS_ACCESS_KEY_ID") →
     setup config environ
     = inl (TypeError "str expected, not SectionProxy"))
  ∧ ∀ environ', setup config environ ≠ inr environ'.
Proof.
  unfold setup, config_getitem.
  destruct (config !! "AWS_ACCESS_KEY_ID") as [section|] eqn:Hsection.
  - rewrite decide_False by (intros [_ ?]; done). cbn.
    split_and!; [done|done|]. intros environ'. discriminate.
  - rewrite decide_True by done.
    split_and!; [done|by intros [? ?]|]. intros environ'. discriminate.
Qed.

Lemma setup_always_raises_witness :
  setup ∅ ∅ = inl (KeyError "AWS_ACCESS_KEY_ID")
  ∧ setup {["AWS_ACCESS_KEY_ID" := {["key" := "AKIA"]};
            "AWS_SECRET_ACCESS_KEY" := {["key" := "secret"]}]} ∅
    = inl (TypeError "str expected, not SectionProxy").
Proof.
  split.
  - apply (proj1 (setup_always_raises ∅ ∅)). apply lookup_empty.
  - apply (proj1 (proj2 (setup_always_raises
             {["AWS_ACCESS_KEY_ID" := {["key" := "AKIA"]};
               "AWS_SECRET_ACCESS_KEY" := {["key" := "secret"]}]} ∅))).
    eexists. vm_compute. reflexivity.
Defined.

(** ** The origin of a fact row *)

(** X15. Every row a completed run writes to songplays.parquet comes
    from one NextSong event of the log and one row of the lookup table:
    the event has an artist and a song, neither null, which are the
    artist_name and the title of the lookup row; the event has a ts, on
    which the lambda of the udf returned the start_time of the row;
    user_id, level, session_id, location and user_agent are the event's,
    song_id and artist_id the lookup row's. *)
Theorem fact_row_origin `{Engine} (df0 : DataFrame Log.t)
    (output_data : string) (w w' : World) (songs_art : DataFrame Mapping.t) :
  temp_views w !! "sng_art_mapping" = Some songs_art →
  process_log_data df0 output_data w = (w', Done ()) →
  ∃ parts,
    store w' !! (output_data +:+ "/songplays.parquet")
    = Some (SongplaysParquet parts)
    ∧ ∀ row, row ∈ rows_of parts →
        ∃ r a s m ts,
          r ∈ collect df0 ∧ Log.page r = Some "NextSong"
          ∧ m ∈ collect songs_art
          ∧ Log.artist r = Some a ∧ Mapping.artist_name m = Some a
          ∧ Log.song r = Some s ∧ Mapping.title m = Some s
          ∧ Log.ts r = Some ts
          ∧ get_timestamp ts = Some (Songplay.start_time row)
          ∧ Songplay.user_id row = Log.user_id r
          ∧ Songplay.level row = Log.level r
          ∧ Songplay.session_id row = Log.session_id r
          ∧ Songplay.location row = Log.location r
          ∧ Songplay.user_agent row = Log.user_agent r
          ∧ Songplay.song_id row = Mapping.song_id m
          ∧ Songplay.artist_id row = Mapping.artist_id m.
Proof.
  intros Hview Hrun.
  destruct (run_done _ _ _ _ Hrun) as (_ & _ & _ & Hret & _).
  destruct (completed_run _ _ _ _ Hrun) as (songs_art' & Hview' & Hfacts).
  rewrite Hview in Hview'. injection Hview' as <-.
  eexists. split; [exact Hfacts|].
  intros row. rewrite rows_of_partitionBy.
  intros (r & id & m & Hnext%elem_of_numbered & Hm
          & (a & s & Ha & Hs & Ha' & Hs')%on_artist_and_song_spec & ->)
           %elem_of_songplays.
  destruct (proj1 (lambda_returns_spec _) Hret r Hnext)
    as (ts & t & Hts & Hget).
  apply elem_of_next_song in Hnext as [Hr Hpage].
  exists r, a, s, m, ts. split_and!; try done.
  rewrite Hget. f_equal. symmetry.
  by apply (start_time_of_returns r ts).
Qed.

Lemma fact_row_origin_witness :
  ∃ parts,
    store (process_log_data (H:=UTC.engine)
             [[Scenario.play; Scenario.home]; [Scenario.paid]] "out"
             Scenario.loaded).1
      !! ("out" +:+ "/songplays.parquet") = Some (SongplaysParquet parts)
    ∧ ∀ row, row ∈ rows_of parts →
             ∃ r, r ∈ [Scenario.play; Scenario.home; Scenario.paid]
                  ∧ Songplay.user_id row = Log.user_id r.
Proof.
  destruct (fact_row_origin (H:=UTC.engine)
              [[Scenario.play; Scenario.home]; [Scenario.paid]] "out"
              Scenario.loaded
              (process_log_data (H:=UTC.engine)
                 [[Scenario.play; Scenario.home]; [Scenario.paid]] "out"
                 Scenario.loaded).1
              (sng_art_mapping [[Scenario.song]]))
    as (parts & Hstore & Hrows).
  - vm_compute. reflexivity.
  - vm_compute. reflexivity.
  - exists parts. split; [exact Hstore|]. intros row Hrow.
    destruct (Hrows row Hrow) as (r & a & s & m & ts & Hr & _ & _ & _ & _ & _
                                  & _ & _ & _ & Hu & _).
    exists r. split; [exact Hr|exact Hu].
Defined.

(** ** What a run owes to the world it starts in *)

(** X16. What a completed [main] leaves at its five paths and under the
    name of its view depends on its two data frames alone: started in
    any two worlds, whatever they hold at those paths and whatever view
    they have registered, it leaves the same five tables and the same
    view. *)
Theorem main_overwrites `{Engine} (song_data : DataFrame Catalog.t)
    (log_data : DataFrame Log.t) (output_data : string) (w1 w2 : World) :
  (main song_data log_data output_data w1).2 = Done () →
  (main song_data log_data output_data w2).2 = Done () →
  temp_views (main song_data log_data output_data w1).1 !! "sng_art_mapping"
  = temp_views (main song_data log_data output_data w2).1
      !! "sng_art_mapping"
  ∧ Forall (λ table,
              store (main song_data log_data output_data w1).1
                !! (output_data +:+ table)
              = store (main song_data log_data output_data w2).1
                  !! (output_data +:+ table))
           ["/songs.parquet"; "/artists.parquet"; "/users.parquet";
            "/time.parquet"; "/songplays.parquet"].
Proof.
  intros (? & ? & ? & ? & ? & Hret%Is_true_true)%main_done_iff
         (? & ? & ? & ? & ? & _)%main_done_iff.
  rewrite !main_run. cbn zeta. rewrite Hret, !decide_False by done.
  cbn [fst temp_views store]. split; [by rewrite !lookup_insert_eq|].
  repeat constructor; cbn beta;
    repeat (rewrite lookup_insert_eq || rewrite lookup_insert_ne by auto);
    done.
Qed.

Lemma main_overwrites_witness :
  temp_views (main (H:=UTC.engine) [[Scenario.cover]] [[Scenario.paid]] "out"
                   Scenario.empty).1 !! "sng_art_mapping"
  = temp_views (main (H:=UTC.engine) [[Scenario.cover]] [[Scenario.paid]]
                     "out"
                     (main (H:=UTC.engine) [[Scenario.song]] [[Scenario.play]]
                           "out" Scenario.empty).1).1 !! "sng_art_mapping".
Proof.
  refine (proj1 (main_overwrites (H:=UTC.engine) [[Scenario.cover]]
                   [[Scenario.paid]] "out" Scenario.empty
                   (main (H:=UTC.engine) [[Scenario.song]] [[Scenario.play]]
                         "out" Scenario.empty).1 _ _)).
  - vm_compute. reflexivity.
  - vm_compute. reflexivity.
Defined.

(** ** Inputs without rows *)





(** ** A record the lambda raises on *)

(** X19. One "NextSong" record without a ts, or with a ts on which the
    lambda of the udf raises, stops [process_log_data] at the write of
    the time table: when the store accepts the users and the time table,
    the run raises the exception of the lambda with the users table
    replaced, no time table left (the overwrite has cleared the path and
    the job that was to fill it has failed) and songplays.parquet as it
    was; the view is not asked for. *)
Theorem lambda_failure_stops_run `{Engine} (df0 : DataFrame Log.t)
    (output_data : string) (w : World) (r : Log.t) :
  output_data +:+ "/users.parquet" ∉ read_only w →
  output_data +:+ "/time.parquet" ∉ read_only w →
  r ∈ collect df0 → Log.page r = Some "NextSong" →
  (∀ ts, Log.ts r = Some ts → get_timestamp ts = None) →
  (process_log_data df0 output_data w).2 = Raised PythonException
  ∧ store (process_log_data df0 output_data w).1
      !! (output_data +:+ "/users.parquet")
    = Some (UsersParquet (collect (users_table (next_song df0))))
  ∧ store (process_log_data df0 output_data w).1
      !! (output_data +:+ "/time.parquet") = None
  ∧ store (process_log_data df0 output_data w).1
      !! (output_data +:+ "/songplays.parquet")
    = store w !! (output_data +:+ "/songplays.parquet").
Proof.
  intros Hu Ht Hr Hpage Hraise.
  assert (¬ lambda_returns (next_song df0)) as Hret.
  { intros Hret.
    destruct (proj1 (lambda_returns_spec _) Hret r) as (ts & t & Hts & Hget).
    - by apply elem_of_next_song.
    - by rewrite (Hraise ts Hts) in Hget. }
  pose proof (lambda_raises df0 output_data w Hu Ht Hret) as Hout.
  split_and!.
  - exact Hout.
  - by apply users_written.
  - rewrite process_log_data_run. cbn zeta. rewrite !decide_False by done.
    destruct (lambda_returns (next_song df0)); [by destruct Hret|].
    cbn [fst store]. apply lookup_delete_eq.
  - apply songplays_untouched. by rewrite Hout.
Qed.

Lemma lambda_failure_stops_run_witness :
  (process_log_data (H:=UTC.engine) [[Scenario.play; Scenario.far]] "out"
                    Scenario.loaded).2 = Raised PythonException
  ∧ store (process_log_data (H:=UTC.engine) [[Scenario.play; Scenario.far]]
                            "out" Scenario.loaded).1
      !! ("out" +:+ "/time.parquet") = None.
Proof.
  destruct (lambda_failure_stops_run (H:=UTC.engine)
              [[Scenario.play; Scenario.far]] "out" Scenario.loaded
              Scenario.far)
    as (Hout & _ & Htime & _).
  - vm_compute. discriminate.
  - vm_compute. discriminate.
  - vm_compute. do 2 constructor.
  - reflexivity.
  - intros ts Hts. injection Hts as <-. vm_compute. reflexivity.
  - split; [exact Hout|exact Htime].
Defined.
